(** * ripple-id: the cached, deadline-bounded name resolver of [id_api.py]

    A shallow embedding of [get_domain], [get_nickname], [cachify],
    [tuplify], [run_address_resolver] and [get_any_name], followed by the
    properties of the resolver that the design document states.

    Conventions of the embedding.
    - Python values are the terms of [pyval]; JSON numbers are integers.
    - A source resolver performs network requests only; it lives in the
      writer-and-exception monad [IO], which records every request.
    - The cache wrapper and the coordinator mutate the redis cache and the
      shared dict [result] of [get_any_name]; they live in the
      state-and-exception monad [M] over [heap].
    - [log.debug] calls have no effect on any value and are left out. *)

From stdpp Require Import gmap strings list fin_maps.
From Stdlib Require Import ZArith.

Set Warnings "-register-all".

Local Open Scope string_scope.
Local Open Scope Z_scope.
Local Open Scope list_scope.

(** ** Python values *)

Inductive pyval : Type :=
  | PNone
  | PBool (b : bool)
  | PInt (n : Z)
  | PStr (s : string)
  | PList (l : list pyval)
  | PTuple (l : list pyval)
  | PDict (d : list (string * pyval)).

(** Truth value testing ([if v], [not v]). *)
Definition truthy (v : pyval) : bool :=
  match v with
  | PNone => false
  | PBool b => b
  | PInt n => negb (Z.eqb n 0)
  | PStr s => negb (String.eqb s "")
  | PList l | PTuple l => negb (Nat.eqb (length l) 0)
  | PDict d => negb (Nat.eqb (length d) 0)
  end.

Inductive exn : Type :=
  | RequestException
  | ValueError
  | KeyError
  | TypeError
  | AttributeError.

Inductive result (A : Type) : Type :=
  | Ret (a : A)
  | Raise (e : exn).
Arguments Ret {A} a.
Arguments Raise {A} e.

(** Lookup in a dict literal; the first binding of a key is the live one. *)
Fixpoint assoc {A : Type} (k : string) (d : list (string * A)) : option A :=
  match d with
  | [] => None
  | (k', v) :: d' => if String.eqb k k' then Some v else assoc k d'
  end.

(** [v[k]] with a string subscript. *)
Definition subscript (v : pyval) (k : string) : result pyval :=
  match v with
  | PDict d => match assoc k d with Some x => Ret x | None => Raise KeyError end
  | _ => Raise TypeError
  end.

(** [v.get(k, dflt)]: only dicts have the method. *)
Definition dict_get (v : pyval) (k : string) (dflt : pyval) : result pyval :=
  match v with
  | PDict d => Ret (default dflt (assoc k d))
  | _ => Raise AttributeError
  end.

(** [tuplify = lambda v: v if isinstance(v, tuple) else (v,)], on values. *)
Definition tuplify (v : pyval) : list pyval :=
  match v with
  | PTuple l => l
  | _ => [v]
  end.

(** The [key] argument of [cachify] is a field name or a tuple of them;
    [tuplify] at that type. *)
Inductive pykey : Type :=
  | KStr (k : string)
  | KTuple (ks : list string).

Definition tuplify_key (v : pykey) : list string :=
  match v with
  | KTuple ks => ks
  | KStr k => [k]
  end.

(** ** The outside world *)

Record response : Type := Response {
  status_code : Z;
  text : string;
  json : option pyval   (* [None]: [response.json()] raises [ValueError] *)
}.

Inductive http_result : Type :=
  | ConnectionFailed            (* [requests.get] raises [RequestException] *)
  | Answer (r : response).

Inductive event : Type :=
  | HttpGet (url : string) (verify : bool)
  | RedisGet (k : string)
  | RedisSetex (k : string) (ttl : Z) (v : pyval)
  | Invoke (key : list string) (address : string).

(** [config], restricted to the two entries the resolvers read. *)
Record configuration : Type := Config {
  RIPPLE_REST : string;
  DISABLE_SSL_VERIFY : option string
}.

Definition defaults : configuration :=
  {| RIPPLE_REST := "https://rippled.undulous.com";
     DISABLE_SSL_VERIFY := None |}.

(** Cache values retrieved from sources for this many seconds. *)
Definition CACHE_TIMEOUT : Z := 3600 * 12.

(** Some well-known addresses. *)
Definition ADDRESS_DB : gmap string string :=
  list_to_map [
    ("rfYv1TXnwgDDK4WQNbFALykYuEBnrR4pDX", "Dividend Rippler");
    ("rNPRNzBB92BVpAhhZr4iXDTveCgV5Pofm9", "Ripple Israel");
    ("r3ADD8kXSUKHd6zTCKfnKT3zV9EZHjzp1S", "Ripple Union");
    ("rvYAfWj5gh67oV6fW32ZzP3Aw4Eubs59B", "Bitstamp");
    ("razqQKzJRdB4UxFPWf5NEpEG3WMkmwgcXA", "RippleChina");
    ("rnuF96W4SZoCJmbHYBFoJZpR8eCaxNvekK", "RippleCN");
    ("rJHygWcTLVpSXkowott6kzgZU6viQSVYM1", "Justcoin");
    ("rGDWKWni6exeneJdNbEZ3nVX3Rrw5VG1p1", "Goodwill LETS");
    ("rMwjYedjc7qqtKYVLiAccJSmCwih4LnE2q", "SnapSwap");
    ("ra9eZxMbJrUcgV8ui7aPc161FgrqWScQxV", "Peercover")
  ].

(** ** The redis cache

    Either a real store, whose entries carry the time-to-live they were
    written with, or the [FakeRedis] stand-in used when no redis URL is
    configured.  Values are kept as written; the byte encoding of the
    client library is not modelled. *)

Inductive redis : Type :=
  | StrictRedis (store : gmap string (Z * pyval))
  | FakeRedis.

Definition redis_get (c : redis) (k : string) : option pyval :=
  match c with
  | StrictRedis store => snd <$> store !! k
  | FakeRedis => None
  end.

Definition redis_setex (c : redis) (k : string) (ttl : Z) (v : pyval) : redis :=
  match c with
  | StrictRedis store => StrictRedis (<[k := (ttl, v)]> store)
  | FakeRedis => FakeRedis
  end.

(** ** Monads *)

(** Resolvers: the requests issued, in order, each a URL with its
    [verify] flag, and the outcome. *)
Definition request : Type := string * bool.

Definition IO (A : Type) : Type := list request * result A.

Definition io_ret {A} (a : A) : IO A := ([], Ret a).

Definition io_bind {A B} (m : IO A) (f : A -> IO B) : IO B :=
  match m with
  | (t, Ret a) => let '(t', r) := f a in (t ++ t', r)
  | (t, Raise e) => (t, Raise e)
  end.

Definition io_lift {A} (r : result A) : IO A := ([], r).

Declare Scope io_scope.
Delimit Scope io_scope with io.
Notation "x <~ m ;; k" := (io_bind m (fun x => k))
  (at level 200, m at level 99, k at level 200, only parsing) : io_scope.

(** Wrappers and coordinator: the cache, the shared dict [result] of the
    request being served (called [channel] in [cachify]), and the log of
    external interactions. *)
Record heap : Type := Heap {
  redis_cache : redis;
  channel : gmap string pyval;
  trace : list event
}.

Definition M (A : Type) : Type := heap -> result A * heap.

Definition ret {A} (a : A) : M A := fun h => (Ret a, h).

Definition raise {A} (e : exn) : M A := fun h => (Raise e, h).

Definition bind {A B} (m : M A) (f : A -> M B) : M B :=
  fun h =>
    match m h with
    | (Ret a, h') => f a h'
    | (Raise e, h') => (Raise e, h')
    end.

Declare Scope m_scope.
Delimit Scope m_scope with m.
Notation "x <- m ;; k" := (bind m (fun x => k))
  (at level 200, m at level 99, k at level 200, only parsing) : m_scope.
Notation "m ;; k" := (bind m (fun _ => k))
  (at level 100, k at level 200, only parsing, right associativity) : m_scope.

Definition emit (e : event) (h : heap) : heap :=
  {| redis_cache := redis_cache h; channel := channel h;
     trace := trace h ++ [e] |}.

(** [redis_cache.get(k)] *)
Definition cache_get (k : string) : M (option pyval) :=
  fun h => (Ret (redis_get (redis_cache h) k), emit (RedisGet k) h).

(** [redis_cache.setex(k, ttl, v)] *)
Definition cache_setex (k : string) (ttl : Z) (v : pyval) : M unit :=
  fun h =>
    (Ret tt,
     {| redis_cache := redis_setex (redis_cache h) k ttl v;
        channel := channel h;
        trace := trace h ++ [RedisSetex k ttl v] |}).

(** [channel[k] = v] *)
Definition channel_set (k : string) (v : pyval) : M unit :=
  fun h =>
    (Ret tt,
     {| redis_cache := redis_cache h;
        channel := <[k := v]> (channel h);
        trace := trace h |}).

(** [channel.update(d)] *)
Definition channel_update (d : gmap string pyval) : M unit :=
  fun h =>
    (Ret tt,
     {| redis_cache := redis_cache h;
        channel := d ∪ channel h;
        trace := trace h |}).

(** [func(address)] inside [cachify]: the call is logged, then the
    resolver's requests. *)
Definition http_event (r : request) : event := HttpGet r.1 r.2.

Definition call (key : list string) (func : string -> IO pyval)
    (address : string) : M pyval :=
  fun h =>
    let '(t, r) := func address in
    (r, {| redis_cache := redis_cache h; channel := channel h;
           trace := trace h ++ Invoke key address :: (http_event <$> t) |}).

(** [result = {}] *)
Definition new_dict : M unit :=
  fun h =>
    (Ret tt,
     {| redis_cache := redis_cache h; channel := ∅; trace := trace h |}).

Definition read_channel : M (gmap string pyval) :=
  fun h => (Ret (channel h), h).

(** [result.get(key)], and [result[key]] where the key is present. *)
Definition field (result : gmap string pyval) (key : string) : pyval :=
  default PNone (result !! key).

(** ** Source resolvers *)

(** ['%s' % v]: a string is inserted as it is; [py_str] stands for the
    conversion [str(v)] of every other value. *)
Definition percent_s (py_str : pyval -> string) (v : pyval) : string :=
  match v with
  | PStr s => s
  | _ => py_str v
  end.

(** [except RequestException:] around a request. *)
Definition except_RequestException {A} (m : IO A) : IO (option A) :=
  match m with
  | (t, Ret a) => (t, Ret (Some a))
  | (t, Raise RequestException) => (t, Ret None)
  | (t, Raise e) => (t, Raise e)
  end.

(** How the [for ... else] loop over the ripple.txt candidates ends. *)
Inductive loop_exit : Type :=
  | Break (response : response)
  | Exhausted (possible_temp_error : bool).

Section Resolvers.

(** The process configuration read from the environment. *)
Variable config : configuration.
(** [requests.get(url, verify=...)]: what the network answers. *)
Variable requests_get : string -> bool -> http_result.
(** [rippletxt.get_urls] and [rippletxt.loads], of the rippletxt
    package: the candidate locations of a domain's ripple.txt, and the
    parser, which yields a dict from section names to lists of lines. *)
Variable rippletxt_get_urls : pyval -> result (list string).
Variable rippletxt_loads : string -> result (list (string * list string)).
(** [str(v)] for values that are not strings. *)
Variable py_str : pyval -> string.

Local Open Scope io_scope.

Definition http_get (url : string) (verify : bool) : IO response :=
  ([(url, verify)],
   match requests_get url verify with
   | ConnectionFailed => Raise RequestException
   | Answer r => Ret r
   end).

(** [response.json()] *)
Definition response_json (r : response) : IO pyval :=
  io_lift (match json r with Some v => Ret v | None => Raise ValueError end).

(** [bool(config['DISABLE_SSL_VERIFY'])] *)
Definition disable_ssl_verify : bool :=
  match DISABLE_SSL_VERIFY config with
  | None => false
  | Some s => truthy (PStr s)
  end.

Definition settings_url (address : string) : string :=
  RIPPLE_REST config +:+ "/v1/accounts/" +:+ address +:+ "/settings".

(** Lines 132-149: the loop over [rippletxt.get_urls(domain)]. *)
Fixpoint fetch_ripple_txt (urls : list string) (possible_temp_error : bool)
    : IO loop_exit :=
  match urls with
  | [] => io_ret (Exhausted possible_temp_error)
  | txt :: urls' =>
      r <~ except_RequestException (http_get txt true) ;;
      match r with
      | None => fetch_ripple_txt urls' possible_temp_error
      | Some response =>
          let possible_temp_error := negb (status_code response =? 404) in
          if negb (status_code response =? 200)
          then fetch_ripple_txt urls' possible_temp_error
          else io_ret (Break response)
      end
  end.

(** Return a validated-domain for this address, and an x-name if one is
    defined in ripple.txt. *)
Definition get_domain (address : string) : IO pyval :=
  response <~ http_get (settings_url address) (negb disable_ssl_verify) ;;
  if negb (status_code response =? 200) then io_ret PNone
  else
    body <~ response_json response ;;
    success <~ io_lift (subscript body "success") ;;
    if negb (truthy success) then io_ret PNone
    else
      body <~ response_json response ;;
      settings <~ io_lift (subscript body "settings") ;;
      domain <~ io_lift (dict_get settings "domain" PNone) ;;
      if negb (truthy domain) then
        (* This ripple address has neither domain nor x-name *)
        io_ret (PTuple [PStr ""; PStr ""])
      else
        urls <~ io_lift (rippletxt_get_urls domain) ;;
        exit <~ fetch_ripple_txt urls false ;;
        match exit with
        | Exhausted possible_temp_error =>
            (* No ripple.txt found.
               In some cases we will try again next time. *)
            if possible_temp_error then io_ret PNone
            else io_ret (PTuple [PStr ""; PStr ""])
        | Break response =>
            cfg <~ io_lift (rippletxt_loads (text response)) ;;
            if negb (bool_decide (address ∈ default [] (assoc "accounts" cfg)))
            then
              (* ripple.txt does not advertise this account *)
              io_ret (PTuple [PStr ""; PStr ""])
            else
              io_ret (PTuple [domain;
                              match assoc "x-name" cfg with
                              | Some lines => PList (PStr <$> lines)
                              | None => PStr ""
                              end])
        end.

(** Check if there is a nickname associated with this address, by
    checking id.ripple.com. *)
Definition get_nickname (address : string) : IO pyval :=
  response <~ http_get ("https://id.ripple.com/v1/user/" +:+ address) true ;;
  if negb (status_code response =? 200) then io_ret PNone
  else
    data <~ response_json response ;;
    nickname <~ io_lift (dict_get data "username" (PStr "")) ;;
    io_ret (if truthy nickname
            then PStr ("~" +:+ percent_s py_str nickname)
            else PStr "").

Local Close Scope io_scope.
Local Open Scope m_scope.

(** ** The cache wrapper *)

(** ['%s:%s' % (address, k)] *)
Definition cache_key (address k : string) : string :=
  address +:+ ":" +:+ k.

(** Lines 222-226: collect the fields found in the cache. *)
Fixpoint read_cache (address : string) (key : list string)
    (cached_result : gmap string pyval) : M (gmap string pyval) :=
  match key with
  | [] => ret cached_result
  | k :: key' =>
      v <- cache_get (cache_key address k) ;;
      read_cache address key'
        (match v with
         | Some v => <[k := v]> cached_result
         | None => cached_result
         end)
  end.

(** Lines 240-242: publish and cache the zipped pairs. *)
Fixpoint write_back (address : string) (kvs : list (string * pyval))
    : M unit :=
  match kvs with
  | [] => ret tt
  | (k, v) :: kvs' =>
      channel_set k v ;;
      cache_setex (cache_key address k) CACHE_TIMEOUT v ;;
      write_back address kvs'
  end.

(** [if cached_result:] *)
Definition dict_truthy (d : gmap string pyval) : bool :=
  negb (Nat.eqb (size d) 0).

(** [cachify(func, channel, key)]; [channel] is the shared dict of the
    heap. *)
Definition cachify (func : string -> IO pyval) (key : pykey)
    : string -> M unit :=
  let key := tuplify_key key in
  fun address =>
    (* Check the cache first *)
    cached_result <- read_cache address key ∅ ;;
    if dict_truthy cached_result then channel_update cached_result
    else
      (* Run the function *)
      result <- call key func address ;;
      match result with
      | PNone =>
          (* None indicates no values available right now,
             but try again next time rather than caching. *)
          ret tt
      | _ => write_back address (zip key (tuplify result))
      end.

(** ** The coordinator *)

(** A spawned greenlet is a computation waiting to be run by the hub. *)
Definition greenlet : Type := M unit.

(** Run an address resolver in a greenlet. *)
Definition run_address_resolver (func : string -> M unit)
    (address : string) : greenlet :=
  func address.

(** A greenlet that runs to its end, normally or by an exception.  The
    run itself does not raise: how the greenlet ended is kept with the
    greenlet (its [value], or its [exception]), and handed to whoever
    waits for it. *)
Definition run_to_end (g : greenlet) : M (result unit) :=
  fun h => (Ret (g h).1, (g h).2).

(** [gevent.joinall(greenlets, timeout=None, raise_error=False)].  The
    second argument replaces the clock: it tells, greenlet by greenlet,
    whether the greenlet has run to its end when the wait is over, by
    completion or by the timeout; a greenlet that has published its
    fields counts as run.  The greenlets that ran are taken one after the
    other, in the order they were spawned: each wrapper writes its own
    fields only, so the shared dict they leave does not depend on how the
    hub interleaved them.  Of a greenlet that has not run to its end the
    heap keeps nothing: the cache reads and requests it has already made,
    and what it writes to the cache after the wait is over, are left
    out.  With [raise_error] the wait raises the exception of a greenlet
    that ended by one; without, it goes on to the next. *)
Fixpoint joinall (greenlets : list greenlet) (in_time : list bool)
    (raise_error : bool) : M unit :=
  match greenlets, in_time with
  | g :: greenlets', true :: in_time' =>
      ended <- run_to_end g ;;
      match ended with
      | Raise e =>
          if raise_error then raise e
          else joinall greenlets' in_time' raise_error
      | Ret _ => joinall greenlets' in_time' raise_error
      end
  | g :: greenlets', false :: in_time' =>
      joinall greenlets' in_time' raise_error
  | _, _ => ret tt
  end.

(** Lines 185-189: pick the best result. *)
Fixpoint pick_best (keys : list string) (result : gmap string pyval)
    : pyval :=
  match keys with
  | [] => PStr ""
  | key :: keys' =>
      if truthy (field result key) then field result key
      else pick_best keys' result
  end.

(** Check all known data sources, return the best one available. *)
Definition get_any_name (address : string) (in_time : list bool)
    : M pyval :=
  (* Locally-known names override everything *)
  match ADDRESS_DB !! address with
  | Some name => ret (PStr name)
  | None =>
      new_dict ;;
      joinall
        [run_address_resolver (cachify get_domain (KStr "domain")) address;
         run_address_resolver (cachify get_nickname (KStr "nickname")) address]
        in_time false (* [raise_error] is not passed *) ;;
      result <- read_channel ;;
      ret (pick_best ["name"; "nickname"; "domain"] result)
  end.

End Resolvers.

(** ** Vocabulary of the statements *)

(** The fields of [key] found in the cache [c], added to [acc]: the dict
    [cached_result] once the loop over [key] is over. *)
Fixpoint cached_fields (c : redis) (address : string) (key : list string)
    (acc : gmap string pyval) : gmap string pyval :=
  match key with
  | [] => acc
  | k :: key' =>
      cached_fields c address key'
        (match redis_get c (cache_key address k) with
         | Some v => <[k := v]> acc
         | None => acc
         end)
  end.

Definition setex_event (address : string) (kv : string * pyval) : event :=
  RedisSetex (cache_key address kv.1) CACHE_TIMEOUT kv.2.

Definition setex_all (address : string) (c : redis)
    (kvs : list (string * pyval)) : redis :=
  foldl (fun c kv => redis_setex c (cache_key address kv.1) CACHE_TIMEOUT kv.2)
    c kvs.

Definition insert_all (d : gmap string pyval) (kvs : list (string * pyval))
    : gmap string pyval :=
  foldl (fun d kv => <[kv.1 := kv.2]> d) d kvs.

(** The events a run has added to the log. *)
Definition new_events (h h' : heap) : list event :=
  drop (length (trace h)) (trace h').

(** From [h] to [h'], the fields written to the shared dict and to the
    cache entries of [address] are among [keys]; the log only grows. *)
Definition writes_within (address : string) (keys : list string)
    (h h' : heap) : Prop :=
  (forall k, k ∉ keys -> channel h' !! k = channel h !! k) /\
  (forall k, k ∉ keys ->
     redis_get (redis_cache h') (cache_key address k)
     = redis_get (redis_cache h) (cache_key address k)) /\
  (exists t, trace h' = trace h ++ t /\
     forall k ttl v,
       RedisSetex (cache_key address k) ttl v ∈ t -> k ∈ keys).

(** Every requested field misses the cache. *)
Definition all_miss (c : redis) (address : string) (keys : list string)
    : Prop :=
  forall k, k ∈ keys -> redis_get c (cache_key address k) = None.

(** The heap once a greenlet has run to its end, or the heap as it was
    when the greenlet is still pending. *)
Definition after_greenlet (ran : bool) (g : greenlet) (h : heap) : heap :=
  if ran then (g h).2 else h.

Definition is_setex (e : event) : bool :=
  match e with
  | RedisSetex _ _ _ => true
  | _ => false
  end.

(** A resolver run that gives no value: [None], or an exception. *)
Definition no_answer (r : result pyval) : Prop :=
  match r with
  | Ret PNone | Raise _ => True
  | Ret _ => False
  end.

(** What a resolver run makes the wrapper write back. *)
Definition written (keys : list string) (r : result pyval)
    : list (string * pyval) :=
  match r with
  | Ret PNone | Raise _ => []
  | Ret v => zip keys (tuplify v)
  end.

(** The value a wrapper with one key gets out of a resolver run: the
    value returned, or the first component of a returned tuple; nothing
    for [None], for the empty tuple and for an exception. *)
Definition first_value (r : result pyval) : option pyval :=
  match r with
  | Ret PNone => None
  | Ret v => head (tuplify v)
  | Raise _ => None
  end.

(** The value of field [k] that a greenlet leaves in the shared dict: the
    cached one if there is one, else the one its resolver gives; nothing
    if the greenlet has not run. *)
Definition field_read (c : redis) (address k : string) (ran : bool)
    (r : result pyval) : option pyval :=
  if ran then
    match redis_get c (cache_key address k) with
    | Some w => Some w
    | None => first_value r
    end
  else None.

(** The merger on the two fields that are ever written. *)
Definition best_of (nickname domain : option pyval) : pyval :=
  if truthy (default PNone nickname) then default PNone nickname
  else if truthy (default PNone domain) then default PNone domain
  else PStr "".

(** What a resolver returned, and what it asked the network. *)
Definition outcome {A} (m : IO A) : result A := m.2.
Definition requests {A} (m : IO A) : list request := m.1.
Arguments outcome : simpl never.
Arguments requests : simpl never.
Arguments io_bind : simpl never.
Arguments io_ret : simpl never.
Arguments io_lift : simpl never.

(** The definitive negative of the domain resolver: [return "", ""]. *)
Definition no_domain : pyval := PTuple [PStr ""; PStr ""].

Section Candidates.

Variable config : configuration.
Variable requests_get : string -> bool -> http_result.

(** The status a ripple.txt candidate answers with, if it answers. *)
Definition candidate_status (url : string) : option Z :=
  match requests_get url true with
  | ConnectionFailed => None
  | Answer r => Some (status_code r)
  end.

(** The settings request is answered with status 200 and a JSON body
    whose [success] is true and whose [settings] dict has [domain] for
    its domain entry ([PNone] when there is none). *)
Definition settings_domain (address : string) (domain : pyval) : Prop :=
  exists r body success settings,
    requests_get (settings_url config address)
      (negb (disable_ssl_verify config)) = Answer r /\
    status_code r = 200 /\
    json r = Some body /\
    subscript body "success" = Ret success /\
    truthy success = true /\
    subscript body "settings" = Ret settings /\
    dict_get settings "domain" PNone = Ret domain.

End Candidates.

(** A concrete network, for running the resolver. *)
Module Scenario.

Definition account : string := "rHb9CJAWyB4rj91VRWn96DkukG4bwdtyTh".

(** A network given by a table of answers; every other request fails to
    connect. *)
Definition network (table : list (string * http_result))
    : string -> bool -> http_result :=
  fun url _ => default ConnectionFailed (assoc url table).

Definition answer (status : Z) (doc : string) (body : option pyval)
    : http_result :=
  Answer {| status_code := status; text := doc; json := body |}.

Definition get_urls (domain : pyval) : result (list string) :=
  match domain with
  | PStr d =>
      Ret ["https://ripple." +:+ d +:+ "/ripple.txt";
           "https://www." +:+ d +:+ "/ripple.txt";
           "https://" +:+ d +:+ "/ripple.txt"]
  | _ => Raise TypeError
  end.

(** Two ripple.txt documents: one that vouches for [account] and carries
    an x-name, one that vouches for another account. *)
Definition loads (doc : string) : result (list (string * list string)) :=
  if String.eqb doc "vouching" then
    Ret [("accounts", [account]); ("x-name", ["Example Corp"])]
  else if String.eqb doc "other" then
    Ret [("accounts", ["rNPRNzBB92BVpAhhZr4iXDTveCgV5Pofm9"])]
  else Raise ValueError.

Definition py_str (v : pyval) : string :=
  match v with
  | PInt _ => "0"
  | PBool true => "True"
  | _ => "None"
  end.

Definition settings (body : pyval) : string * http_result :=
  (settings_url defaults account, answer 200 "" (Some body)).

Definition with_domain : pyval :=
  PDict [("success", PBool true);
         ("settings", PDict [("domain", PStr "example.com")])].

Definition without_domain : pyval :=
  PDict [("success", PBool true); ("settings", PDict [])].

Definition nickname (body : http_result) : string * http_result :=
  ("https://id.ripple.com/v1/user/" +:+ account, body).

Definition username (name : string) : http_result :=
  answer 200 "" (Some (PDict [("username", PStr name)])).

(** Domain, vouching ripple.txt with an x-name, and a nickname. *)
Definition all_three : string -> bool -> http_result :=
  network [settings with_domain;
           ("https://www.example.com/ripple.txt", answer 404 "" None);
           ("https://example.com/ripple.txt", answer 200 "vouching" None);
           nickname (username "alice")].

(** The ripple.txt found does not list the account. *)
Definition not_listed : string -> bool -> http_result :=
  network [settings with_domain;
           ("https://example.com/ripple.txt", answer 200 "other" None);
           nickname (username "")].

(** No domain in the settings, no username in the directory. *)
Definition nothing_known : string -> bool -> http_result :=
  network [settings without_domain;
           nickname (answer 200 "" (Some (PDict [])))].

(** First candidate fails with 500, the two others answer 404. *)
Definition error_then_404 : string -> bool -> http_result :=
  network [settings with_domain;
           ("https://ripple.example.com/ripple.txt", answer 500 "" None);
           ("https://www.example.com/ripple.txt", answer 404 "" None);
           ("https://example.com/ripple.txt", answer 404 "" None);
           nickname (answer 503 "" None)].

(** First candidate answers 404, the second 500, the third is down. *)
Definition error_then_down : string -> bool -> http_result :=
  network [settings with_domain;
           ("https://ripple.example.com/ripple.txt", answer 404 "" None);
           ("https://www.example.com/ripple.txt", answer 500 "" None)].

(** Every candidate answers 404. *)
Definition all_404 : string -> bool -> http_result :=
  network [settings with_domain;
           ("https://ripple.example.com/ripple.txt", answer 404 "" None);
           ("https://www.example.com/ripple.txt", answer 404 "" None);
           ("https://example.com/ripple.txt", answer 404 "" None)].

(** Nothing can be reached. *)
Definition unreachable : string -> bool -> http_result := network [].

(** Both services answer 200 with a body that is not JSON. *)
Definition garbled : string -> bool -> http_result :=
  network [(settings_url defaults account, answer 200 "<html>" None);
           nickname (answer 200 "<html>" None)].

(** The domain resolver on the network [all_three]. *)
Definition domain_source : string -> IO pyval :=
  get_domain defaults all_three get_urls loads.

Definition cold : heap :=
  {| redis_cache := StrictRedis ∅; channel := ∅; trace := [] |}.

(** Only the domain of [account] is cached. *)
Definition domain_cached : heap :=
  {| redis_cache :=
       StrictRedis {[ cache_key account "domain" :=
                        (CACHE_TIMEOUT, PStr "example.com") ]};
     channel := ∅; trace := [] |}.

(** The candidates of example.com, the ripple.txt that vouches for
    [account], and what it parses to. *)
Definition candidates : list string :=
  ["https://ripple.example.com/ripple.txt";
   "https://www.example.com/ripple.txt";
   "https://example.com/ripple.txt"].

Definition vouching_doc : response :=
  {| status_code := 200; text := "vouching"; json := None |}.

Definition vouching_cfg : list (string * list string) :=
  [("accounts", [account]); ("x-name", ["Example Corp"])].

(** The settings service answers 500. *)
Definition settings_refused : string -> bool -> http_result :=
  network [(settings_url defaults account, answer 500 "" None)].

(** The settings service reports a failure. *)
Definition settings_failure : string -> bool -> http_result :=
  network [settings (PDict [("success", PBool false)])].

(** The settings service answers with an empty JSON object; the
    directory knows the account with a null username. *)
Definition odd_bodies : string -> bool -> http_result :=
  network [settings (PDict []);
           nickname (answer 200 "" (Some (PDict [("username", PNone)])))].

(** No redis URL is configured. *)
Definition uncached : heap :=
  {| redis_cache := FakeRedis; channel := ∅; trace := [] |}.

(** Domain and nickname of [account] are cached, the nickname as the
    empty string. *)
Definition both_cached : heap :=
  {| redis_cache :=
       StrictRedis
         (<[ cache_key account "nickname" := (CACHE_TIMEOUT, PStr "") ]>
            {[ cache_key account "domain" :=
                 (CACHE_TIMEOUT, PStr "example.com") ]});
     channel := ∅; trace := [] |}.

End Scenario.

(** ** What a wrapper run does to the heap *)

Lemma read_cache_run address key acc h :
  read_cache address key acc h =
  (Ret (cached_fields (redis_cache h) address key acc),
   {| redis_cache := redis_cache h; channel := channel h;
      trace := trace h ++ (RedisGet ∘ cache_key address <$> key) |}).
Proof.
  revert acc h. induction key as [|k key IH]; intros acc h; simpl.
  - unfold ret. rewrite app_nil_r. by destruct h.
  - unfold bind, cache_get. rewrite IH. simpl.
    by rewrite <- app_assoc.
Qed.

Lemma write_back_run address kvs h :
  write_back address kvs h =
  (Ret tt,
   {| redis_cache := setex_all address (redis_cache h) kvs;
      channel := insert_all (channel h) kvs;
      trace := trace h ++ (setex_event address <$> kvs) |}).
Proof.
  revert h. induction kvs as [|[k v] kvs IH]; intros h; simpl.
  - unfold ret. rewrite app_nil_r. by destruct h.
  - unfold bind, channel_set, cache_setex. rewrite IH. simpl.
    by rewrite <- app_assoc.
Qed.

Lemma cached_fields_lookup c address key acc k :
  cached_fields c address key acc !! k =
  if decide (k ∈ key)
  then match redis_get c (cache_key address k) with
       | Some v => Some v
       | None => acc !! k
       end
  else acc !! k.
Proof.
  revert acc. induction key as [|k' key IH]; intros acc; simpl.
  - destruct (decide (k ∈ [])) as [Hin|_]; [by apply elem_of_nil in Hin | done].
  - rewrite IH. clear IH.
    destruct (decide (k = k')) as [->|Hne].
    + destruct (decide (k' ∈ k' :: key)) as [_|Hnin]; [|set_solver].
      destruct (redis_get c (cache_key address k')) as [v|] eqn:Hget.
      * rewrite lookup_insert_eq. by case_decide.
      * by case_decide.
    + assert (Hacc : (match redis_get c (cache_key address k') with
                      | Some v => <[k' := v]> acc
                      | None => acc
                      end) !! k = acc !! k).
      { destruct (redis_get c (cache_key address k')); [|done].
        by rewrite lookup_insert_ne. }
      rewrite Hacc.
      destruct (decide (k ∈ k' :: key)) as [Hin'|Hin'].
      * apply elem_of_cons in Hin' as [->|Hin']; [done|].
        by destruct (decide (k ∈ key)).
      * destruct (decide (k ∈ key)) as [Hin|_]; [|done].
        exfalso. apply Hin'. by right.
Qed.

(** [cached_result] is empty exactly when every field misses. *)
Lemma cached_fields_empty c address key :
  dict_truthy (cached_fields c address key ∅) = false <->
  (forall k, k ∈ key -> redis_get c (cache_key address k) = None).
Proof.
  unfold dict_truthy. rewrite negb_false_iff, Nat.eqb_eq, map_size_empty_iff.
  split.
  - intros Hempty k Hin.
    pose proof (cached_fields_lookup c address key ∅ k) as Hk.
    rewrite Hempty, lookup_empty, decide_True in Hk by done.
    by destruct (redis_get c (cache_key address k)).
  - intros Hmiss. apply map_eq; intros k.
    rewrite cached_fields_lookup, lookup_empty.
    case_decide as Hin; [|done]. by rewrite (Hmiss k Hin).
Qed.

Lemma new_events_app h t c d :
  new_events h {| redis_cache := c; channel := d; trace := trace h ++ t |}
  = t.
Proof. unfold new_events. simpl. by rewrite drop_app_length. Qed.

(** One run of a wrapper, in full.  With a field found in the cache, the
    wrapper publishes what it found and stops.  With none, it calls the
    resolver and passes on its exception, or stops on [None], or writes
    the zipped pairs back. *)
Lemma cachify_run func key address h :
  cachify func key address h =
  let keys := tuplify_key key in
  let gets := RedisGet ∘ cache_key address <$> keys in
  let cached_result := cached_fields (redis_cache h) address keys ∅ in
  if dict_truthy cached_result then
    (Ret tt,
     {| redis_cache := redis_cache h;
        channel := cached_result ∪ channel h;
        trace := trace h ++ gets |})
  else
    let called :=
      trace h ++ gets
        ++ Invoke keys address :: (http_event <$> requests (func address)) in
    match outcome (func address) with
    | Raise e =>
        (Raise e,
         {| redis_cache := redis_cache h; channel := channel h;
            trace := called |})
    | Ret PNone =>
        (Ret tt,
         {| redis_cache := redis_cache h; channel := channel h;
            trace := called |})
    | Ret v =>
        let kvs := zip keys (tuplify v) in
        (Ret tt,
         {| redis_cache := setex_all address (redis_cache h) kvs;
            channel := insert_all (channel h) kvs;
            trace := called ++ (setex_event address <$> kvs) |})
    end.
Proof.
  unfold cachify, bind. rewrite read_cache_run. cbn zeta.
  destruct (dict_truthy _); [done|].
  unfold call, outcome, requests. cbn [redis_cache channel trace].
  destruct (func address) as [t [v|e]]; cbn [fst snd];
    [|by rewrite <- app_assoc].
  destruct v; [unfold ret; by rewrite <- app_assoc|..];
    rewrite write_back_run; cbn [redis_cache channel trace];
    by rewrite <- !app_assoc.
Qed.

(** *** A wrapper invokes its resolver when no field is cached *)

Lemma invoke_not_a_get keys address (l : list string) :
  Invoke keys address ∉ (RedisGet ∘ cache_key address <$> l).
Proof. by intros (k & [=] & _)%list_elem_of_fmap. Qed.

(** C3, as the code has it.  The resolver is invoked exactly when none of
    the requested fields is in the cache.  As soon as one field is found,
    be it the only one of several, the wrapper returns after its cache
    reads: the cache is not written, and every field found is in the
    shared dict with its cached value. *)
Theorem cachify_invokes_iff_no_field_cached func key address h :
  let keys := tuplify_key key in
  let h' := (cachify func key address h).2 in
  (Invoke keys address ∈ new_events h h' <->
   all_miss (redis_cache h) address keys) /\
  (~ all_miss (redis_cache h) address keys ->
   (cachify func key address h).1 = Ret tt /\
   new_events h h' = (RedisGet ∘ cache_key address <$> keys) /\
   redis_cache h' = redis_cache h /\
   forall k v,
     k ∈ keys ->
     redis_get (redis_cache h) (cache_key address k) = Some v ->
     channel h' !! k = Some v).
Proof.
  intros keys h'. subst h'. rewrite cachify_run. fold keys. cbn zeta.
  pose proof (cached_fields_empty (redis_cache h) address keys) as Hempty.
  fold (all_miss (redis_cache h) address keys) in Hempty.
  destruct (dict_truthy _) eqn:Hhit.
  - assert (Hsome : ~ all_miss (redis_cache h) address keys).
    { intros Hmiss%Hempty. done. }
    cbn [fst snd]. rewrite new_events_app. split.
    + split; [|done]. intros Hin. by apply invoke_not_a_get in Hin.
    + intros _. repeat split.
      intros k v Hk Hget. cbn [channel].
      apply lookup_union_Some_l.
      by rewrite cached_fields_lookup, decide_True, Hget.
  - assert (Hmiss : all_miss (redis_cache h) address keys) by by apply Hempty.
    split; [|done]. split; [intros _; done|]. intros _.
    destruct (outcome (func address)) as [[]|]; cbn [snd];
      rewrite <- ?app_assoc, new_events_app;
      apply elem_of_app; right; left.
Qed.

(** *** A wrapper writes only its own fields *)

Lemma cache_key_inj address k k' :
  cache_key address k = cache_key address k' -> k = k'.
Proof.
  unfold cache_key. induction address as [|a address IH]; simpl.
  - by intros [=].
  - intros [=]. by apply IH.
Qed.

Lemma writes_within_refl address keys h : writes_within address keys h h.
Proof.
  repeat split. exists []. split; [by rewrite app_nil_r|].
  by intros k ttl v Hin%elem_of_nil.
Qed.

Lemma writes_within_trans address keys h1 h2 h3 :
  writes_within address keys h1 h2 ->
  writes_within address keys h2 h3 ->
  writes_within address keys h1 h3.
Proof.
  intros (Hd1 & Hc1 & t1 & Ht1 & Hs1) (Hd2 & Hc2 & t2 & Ht2 & Hs2).
  split; [|split].
  - intros k Hk. by rewrite Hd2, Hd1.
  - intros k Hk. by rewrite Hc2, Hc1.
  - exists (t1 ++ t2). split; [by rewrite Ht2, Ht1, app_assoc|].
    intros k ttl v [Hin|Hin]%elem_of_app; eauto.
Qed.

Lemma writes_within_mono address keys keys' h h' :
  keys ⊆ keys' ->
  writes_within address keys h h' -> writes_within address keys' h h'.
Proof.
  intros Hsub (Hd & Hc & t & Ht & Hs). split; [|split].
  - intros k Hk. apply Hd. intros Hin. by apply Hk, Hsub.
  - intros k Hk. apply Hc. intros Hin. by apply Hk, Hsub.
  - exists t. split; [done|]. intros k ttl v Hin. eapply Hsub, Hs, Hin.
Qed.

Lemma insert_all_lookup_other d kvs k :
  k ∉ kvs.*1 -> insert_all d kvs !! k = d !! k.
Proof.
  revert d. induction kvs as [|[k' v] kvs IH]; intros d Hk; [done|].
  cbn in *. apply not_elem_of_cons in Hk as [Hne Hk].
  unfold insert_all in *. rewrite IH by done. by rewrite lookup_insert_ne.
Qed.

Lemma setex_all_get_other address c kvs k :
  k ∉ kvs.*1 ->
  redis_get (setex_all address c kvs) (cache_key address k)
  = redis_get c (cache_key address k).
Proof.
  revert c. induction kvs as [|[k' v] kvs IH]; intros c Hk; [done|].
  cbn in *. apply not_elem_of_cons in Hk as [Hne Hk].
  unfold setex_all in *. rewrite IH by done.
  destruct c as [store|]; [|done]. cbn.
  rewrite lookup_insert_ne; [done|]. by intros ->%cache_key_inj.
Qed.

Lemma zip_keys_within (keys : list string) (values : list pyval) k :
  k ∈ (zip keys values).*1 -> k ∈ keys.
Proof.
  intros ([k' v] & -> & Hin)%list_elem_of_fmap.
  by apply elem_of_zip_l in Hin.
Qed.

Lemma cachify_writes_within func key address h :
  writes_within address (tuplify_key key) h (cachify func key address h).2.
Proof.
  rewrite cachify_run. cbn zeta. set (keys := tuplify_key key).
  assert (Hgets : forall (l : list string) k ttl v,
            RedisSetex (cache_key address k) ttl v
              ∉ (RedisGet ∘ cache_key address <$> l)).
  { by intros l k ttl v (k' & [=] & _)%list_elem_of_fmap. }
  assert (Hcalled : forall k ttl v,
            RedisSetex (cache_key address k) ttl v
              ∉ (RedisGet ∘ cache_key address <$> keys)
                ++ Invoke keys address
                   :: (http_event <$> requests (func address))).
  { intros k ttl v [Hin|Hin]%elem_of_app; [by eapply Hgets|].
    apply elem_of_cons in Hin as [[=]|Hin].
    by apply list_elem_of_fmap in Hin as (? & [=] & _). }
  assert (Hwritten : forall v : pyval, forall k ttl w,
            RedisSetex (cache_key address k) ttl w
              ∈ (setex_event address <$> zip keys (tuplify v)) ->
            k ∈ keys).
  { intros v k ttl w ([k' w'] & [= Hk _ _] & Hin)%list_elem_of_fmap.
    apply cache_key_inj in Hk as ->. by apply elem_of_zip_l in Hin. }
  destruct (dict_truthy _) eqn:Hhit; cbn [snd].
  - split; [|split]; cbn [redis_cache channel trace].
    + intros k Hk. apply lookup_union_r.
      by rewrite cached_fields_lookup, decide_False.
    + done.
    + eexists. split; [done|]. intros k ttl v Hin. by apply Hgets in Hin.
  - destruct (outcome (func address)) as [v|]; cbn [snd].
    + assert (Hvalue :
        writes_within address keys h
          {| redis_cache :=
               setex_all address (redis_cache h) (zip keys (tuplify v));
             channel := insert_all (channel h) (zip keys (tuplify v));
             trace :=
               (trace h ++ (RedisGet ∘ cache_key address <$> keys)
                 ++ Invoke keys address
                    :: (http_event <$> requests (func address)))
               ++ (setex_event address <$> zip keys (tuplify v)) |}).
      { split; [|split]; cbn [redis_cache channel trace].
        - intros k Hk. apply insert_all_lookup_other.
          intros Hin. by apply Hk, (zip_keys_within _ (tuplify v)).
        - intros k Hk. apply setex_all_get_other.
          intros Hin. by apply Hk, (zip_keys_within _ (tuplify v)).
        - eexists. split; [by rewrite <- app_assoc|].
          intros k ttl w [Hin|Hin]%elem_of_app;
            [by apply Hcalled in Hin | by eapply Hwritten]. }
      destruct v; try exact Hvalue.
      repeat split; cbn [redis_cache channel trace].
      eexists. split; [done|]. intros k ttl v Hin. by apply Hcalled in Hin.
    + repeat split; cbn [redis_cache channel trace].
      eexists. split; [done|]. intros k ttl v Hin. by apply Hcalled in Hin.
Qed.

(** *** A wrapper writes back the fields it has keys for *)

Section FoldInsert.

Context {V : Type} (f : string -> string) (g : pyval -> V).
Hypothesis f_inj : forall k k', f k = f k' -> k = k'.

Let put (m : gmap string V) (kv : string * pyval) : gmap string V :=
  <[f kv.1 := g kv.2]> m.

Lemma foldl_insert_other m kvs k :
  k ∉ kvs.*1 -> foldl put m kvs !! f k = m !! f k.
Proof.
  revert m. induction kvs as [|[k' v'] kvs IH]; intros m Hk; [done|].
  cbn in Hk. apply not_elem_of_cons in Hk as [Hne Hk].
  cbn [foldl]. rewrite IH by done. unfold put. cbn [fst snd].
  rewrite lookup_insert_ne; [done|]. by intros ->%f_inj.
Qed.

Lemma foldl_insert_lookup m kvs k v :
  NoDup kvs.*1 -> (k, v) ∈ kvs -> foldl put m kvs !! f k = Some (g v).
Proof.
  revert m. induction kvs as [|[k' v'] kvs IH]; intros m Hnodup Hin.
  - by apply elem_of_nil in Hin.
  - apply NoDup_cons in Hnodup as [Hfresh Hnodup]. cbn [foldl].
    apply elem_of_cons in Hin as [[= <- <-]|Hin]; [|by apply IH].
    rewrite foldl_insert_other by done. apply lookup_insert_eq.
Qed.

End FoldInsert.

Lemma insert_all_lookup d kvs k v :
  NoDup kvs.*1 -> (k, v) ∈ kvs -> insert_all d kvs !! k = Some v.
Proof. by apply (foldl_insert_lookup id id). Qed.

Lemma setex_all_store address store kvs :
  setex_all address (StrictRedis store) kvs =
  StrictRedis
    (foldl (fun m kv => <[cache_key address kv.1 := (CACHE_TIMEOUT, kv.2)]> m)
       store kvs).
Proof.
  revert store. induction kvs as [|kv kvs IH]; intros store; [done|].
  unfold setex_all in *. cbn [foldl redis_setex]. apply IH.
Qed.

Lemma NoDup_zip_keys (keys : list string) (values : list pyval) :
  NoDup keys -> NoDup (zip keys values).*1.
Proof.
  intros Hnodup. revert values.
  induction Hnodup as [|k keys Hfresh _ IH]; intros [|v values];
    cbn; try constructor; [|apply IH].
  intros Hin. by apply Hfresh, (zip_keys_within _ values).
Qed.

(** X16.  With no field cached, distinct keys and a value returned, every
    pair of the zip of keys and returned values, an empty string like any
    other value, is in the shared dict, is sent to the cache with
    [CACHE_TIMEOUT], and is in the store of a real cache with that
    time-to-live. *)
Lemma cachify_values_written func key address h v k w :
  all_miss (redis_cache h) address (tuplify_key key) ->
  outcome (func address) = Ret v -> v <> PNone ->
  NoDup (tuplify_key key) ->
  (k, w) ∈ zip (tuplify_key key) (tuplify v) ->
  channel (cachify func key address h).2 !! k = Some w /\
  RedisSetex (cache_key address k) CACHE_TIMEOUT w
    ∈ new_events h (cachify func key address h).2 /\
  (forall store,
     redis_cache h = StrictRedis store ->
     exists store',
       redis_cache (cachify func key address h).2 = StrictRedis store' /\
       store' !! cache_key address k = Some (CACHE_TIMEOUT, w)).
Proof.
  intros Hmiss%cached_fields_empty Hret Hvalue Hnodup Hin.
  rewrite cachify_run. cbn zeta. rewrite Hmiss, Hret.
  set (kvs := zip (tuplify_key key) (tuplify v)) in *.
  assert (Hkeys : NoDup kvs.*1) by by apply NoDup_zip_keys.
  assert (Hrun :
    forall c d t,
      insert_all d kvs !! k = Some w /\
      RedisSetex (cache_key address k) CACHE_TIMEOUT w
        ∈ new_events h
            {| redis_cache := c; channel := insert_all d kvs;
               trace := (trace h ++ t) ++ (setex_event address <$> kvs) |} /\
      (forall store,
         redis_cache h = StrictRedis store ->
         exists store',
           setex_all address (redis_cache h) kvs = StrictRedis store' /\
           store' !! cache_key address k = Some (CACHE_TIMEOUT, w))).
  { intros c d t. split; [by apply insert_all_lookup|]. split.
    - rewrite <- app_assoc, new_events_app. apply elem_of_app. right.
      apply list_elem_of_fmap. by exists (k, w).
    - intros store ->. rewrite setex_all_store. eexists. split; [done|].
      by apply (foldl_insert_lookup (cache_key address)
                  (fun v => (CACHE_TIMEOUT, v)) (cache_key_inj address)). }
  destruct v; try apply Hrun. done.
Qed.

(** ** The resolvers *)

Lemma outcome_bind {A B} (m : IO A) (f : A -> IO B) :
  outcome (io_bind m f) =
  match outcome m with
  | Ret a => outcome (f a)
  | Raise e => Raise e
  end.
Proof.
  unfold outcome, io_bind. destruct m as [t [a|e]]; cbn; [|reflexivity].
  destruct (f a); reflexivity.
Qed.

Lemma outcome_lift {A} (r : result A) : outcome (io_lift r) = r.
Proof. done. Qed.

Lemma outcome_ret {A} (a : A) : outcome (io_ret a) = Ret a.
Proof. done. Qed.

(** One statement of a resolver: take the outcome of the first action,
    with what is known of it, and go on with the rest. *)
Ltac io_step :=
  rewrite outcome_bind, ?outcome_lift, ?outcome_ret; cbn.
Tactic Notation "io_step" "with" constr(H) :=
  rewrite outcome_bind, ?outcome_lift, ?outcome_ret, H; cbn.

Section Properties.

Variable config : configuration.
Variable requests_get : string -> bool -> http_result.
Variable rippletxt_get_urls : pyval -> result (list string).
Variable rippletxt_loads : string -> result (list (string * list string)).
Variable py_str : pyval -> string.

Local Abbreviation domain_of :=
  (get_domain config requests_get rippletxt_get_urls rippletxt_loads).
Local Abbreviation nickname_of := (get_nickname requests_get py_str).
Local Abbreviation resolve :=
  (get_any_name config requests_get rippletxt_get_urls rippletxt_loads
     py_str).
Local Abbreviation fetch := (fetch_ripple_txt requests_get).
Local Abbreviation status_of := (candidate_status requests_get).

Lemma outcome_http_get url verify :
  outcome (http_get requests_get url verify) =
  match requests_get url verify with
  | ConnectionFailed => Raise RequestException
  | Answer r => Ret r
  end.
Proof. done. Qed.

(** C5. An identifier of the Local Override Table resolves to its static
    name, and the heap is left as it was: the cache is neither read nor
    written, no resolver is invoked, no request is issued (none of these
    is logged), whatever the network and the deadline. *)
Theorem override_bypasses_cache_and_sources address name in_time h :
  ADDRESS_DB !! address = Some name ->
  resolve address in_time h = (Ret (PStr name), h).
Proof.
  intros Hknown. unfold get_any_name. by rewrite Hknown.
Qed.

(** C7. The nickname resolver, once the directory has answered: a status
    other than 200 gives [None]; status 200 with a non-empty string
    [username] gives that name behind the marker [~]; status 200 with no
    [username], or an empty one, gives the empty string. *)
Theorem get_nickname_outcomes address r :
  requests_get ("https://id.ripple.com/v1/user/" +:+ address) true
    = Answer r ->
  (status_code r <> 200 -> outcome (nickname_of address) = Ret PNone) /\
  (forall data name,
     status_code r = 200 -> json r = Some (PDict data) ->
     assoc "username" data = Some (PStr name) -> name <> "" ->
     outcome (nickname_of address) = Ret (PStr ("~" +:+ name))) /\
  (forall data,
     status_code r = 200 -> json r = Some (PDict data) ->
     assoc "username" data = None \/
       assoc "username" data = Some (PStr "") ->
     outcome (nickname_of address) = Ret (PStr "")).
Proof.
  intros Hanswer.
  assert (Hrun : outcome (nickname_of address) =
            if negb (status_code r =? 200) then Ret PNone
            else match json r with
                 | Some data =>
                     match dict_get data "username" (PStr "") with
                     | Ret nickname =>
                         Ret (if truthy nickname
                              then PStr ("~" +:+ percent_s py_str nickname)
                              else PStr "")
                     | Raise e => Raise e
                     end
                 | None => Raise ValueError
                 end).
  { unfold get_nickname. rewrite outcome_bind, outcome_http_get, Hanswer.
    destruct (negb (status_code r =? 200)); [done|].
    rewrite outcome_bind. unfold response_json. rewrite outcome_lift.
    destruct (json r) as [data|]; [|done].
    rewrite outcome_bind, outcome_lift.
    by destruct (dict_get data "username" (PStr "")). }
  rewrite Hrun. clear Hrun. split; [|split].
  - intros Hstatus. apply Z.eqb_neq in Hstatus. by rewrite Hstatus.
  - intros data name Hstatus Hjson Huser Hname.
    rewrite Hstatus, Hjson. simpl. rewrite Huser. simpl.
    destruct name; [done|]. done.
  - intros data Hstatus Hjson Huser.
    rewrite Hstatus, Hjson. simpl. by destruct Huser as [-> | ->].
Qed.

(** *** The domain resolver *)

Lemma outcome_candidate url :
  outcome (except_RequestException (http_get requests_get url true)) =
  Ret match requests_get url true with
      | ConnectionFailed => None
      | Answer r => Some r
      end.
Proof.
  unfold except_RequestException, http_get, outcome. simpl.
  by destruct (requests_get url true).
Qed.

Lemma omap_status_cons url urls :
  omap status_of (url :: urls) =
  match status_of url with
  | Some status => status :: omap status_of urls
  | None => omap status_of urls
  end.
Proof. done. Qed.

(** The loop never raises: a failed connection is caught, and nothing
    else in it can fail.  When no candidate answers 200 the loop runs to
    its [else] branch, and the flag it ends with comes from the last
    candidate that answered. *)
Lemma fetch_exhausted urls possible_temp_error :
  Forall (fun url => status_of url <> Some 200) urls ->
  outcome (fetch urls possible_temp_error) =
  Ret (Exhausted (match last (omap status_of urls) with
                  | Some status => negb (status =? 404)
                  | None => possible_temp_error
                  end)).
Proof.
  intros Hfail. revert possible_temp_error.
  induction Hfail as [|url urls Hurl _ IH]; intros flag; [done|].
  cbn [fetch_ripple_txt]. rewrite outcome_bind, outcome_candidate.
  rewrite omap_status_cons. unfold candidate_status in Hurl |- * at 1.
  destruct (requests_get url true) as [|r]; [apply IH|].
  assert ((status_code r =? 200) = false) as ->.
  { apply Z.eqb_neq. congruence. }
  cbn [negb]. rewrite IH, last_cons.
  by destruct (last _).
Qed.

(** The loop breaks at the first candidate that answers 200. *)
Lemma fetch_break before url after doc possible_temp_error :
  Forall (fun url' => status_of url' <> Some 200) before ->
  requests_get url true = Answer doc ->
  status_code doc = 200 ->
  outcome (fetch (before ++ url :: after) possible_temp_error) =
  Ret (Break doc).
Proof.
  intros Hfail Hdoc Hstatus. revert possible_temp_error.
  induction Hfail as [|url' urls Hurl _ IH]; intros flag;
    cbn [app fetch_ripple_txt]; rewrite outcome_bind, outcome_candidate.
  - by rewrite Hdoc, Hstatus.
  - unfold candidate_status in Hurl.
    destruct (requests_get url' true) as [|r]; [apply IH|].
    assert ((status_code r =? 200) = false) as ->.
    { apply Z.eqb_neq. congruence. }
    apply IH.
Qed.

(** The resolver past the settings request. *)
Lemma get_domain_run address domain :
  settings_domain config requests_get address domain ->
  outcome (domain_of address) =
  if negb (truthy domain) then Ret no_domain
  else
    match rippletxt_get_urls domain with
    | Raise e => Raise e
    | Ret urls =>
        match outcome (fetch urls false) with
        | Raise e => Raise e
        | Ret (Exhausted possible_temp_error) =>
            if possible_temp_error then Ret PNone else Ret no_domain
        | Ret (Break doc) =>
            match rippletxt_loads (text doc) with
            | Raise e => Raise e
            | Ret cfg =>
                if negb (bool_decide
                           (address ∈ default [] (assoc "accounts" cfg)))
                then Ret no_domain
                else Ret (PTuple [domain;
                                  match assoc "x-name" cfg with
                                  | Some lines => PList (PStr <$> lines)
                                  | None => PStr ""
                                  end])
            end
        end
    end.
Proof.
  intros (r & body & success & settings & Hget & Hstatus & Hjson
          & Hsuccess & Htrue & Hsettings & Hdomain).
  unfold get_domain.
  rewrite outcome_bind, outcome_http_get, Hget, Hstatus. cbn.
  unfold response_json. rewrite Hjson.
  io_step. io_step with Hsuccess. rewrite Htrue. cbn.
  io_step. io_step with Hsettings. io_step with Hdomain.
  destruct (truthy domain); cbn; [|done].
  rewrite outcome_bind, outcome_lift.
  destruct (rippletxt_get_urls domain) as [urls|]; [|done].
  rewrite outcome_bind.
  destruct (outcome (fetch urls false)) as [[doc|flag]|]; [| |done].
  - rewrite outcome_bind, outcome_lift.
    destruct (rippletxt_loads (text doc)) as [cfg|]; [|done].
    destruct (bool_decide _); reflexivity.
  - destruct flag; reflexivity.
Qed.

(** C8. With the settings answered: an account whose settings carry no
    domain (none, or an empty one) gets the pair of empty strings; so does
    an account whose domain serves a ripple.txt, at the first candidate
    answering 200, that does not list the account.  Both are values, not
    [None]. *)
Theorem get_domain_definitive_negatives address domain :
  settings_domain config requests_get address domain ->
  (truthy domain = false ->
   outcome (domain_of address) = Ret (PTuple [PStr ""; PStr ""])) /\
  (forall before url after doc cfg,
     truthy domain = true ->
     rippletxt_get_urls domain = Ret (before ++ url :: after) ->
     Forall (fun url' => status_of url' <> Some 200) before ->
     requests_get url true = Answer doc ->
     status_code doc = 200 ->
     rippletxt_loads (text doc) = Ret cfg ->
     address ∉ default [] (assoc "accounts" cfg) ->
     outcome (domain_of address) = Ret (PTuple [PStr ""; PStr ""])).
Proof.
  intros Hsettings. rewrite (get_domain_run _ _ Hsettings). split.
  - by intros ->.
  - intros before url after doc cfg -> -> Hbefore Hdoc Hstatus Hcfg Hout.
    cbn. rewrite (fetch_break _ _ _ _ _ Hbefore Hdoc Hstatus), Hcfg.
    by rewrite bool_decide_eq_false_2.
Qed.

(** C4, as the code has it.  With a domain in the settings and no
    candidate answering 200, the last candidate that answered decides:
    the result is [None] exactly when its status is not 404, and the pair
    of empty strings when it is 404 or when no candidate answered.  So
    404 from every candidate is a definitive negative. *)
Theorem get_domain_last_answer_decides address domain urls :
  settings_domain config requests_get address domain ->
  truthy domain = true ->
  rippletxt_get_urls domain = Ret urls ->
  Forall (fun url => status_of url <> Some 200) urls ->
  (Forall (fun url => status_of url = Some 404) urls ->
   outcome (domain_of address) = Ret no_domain) /\
  (outcome (domain_of address) = Ret PNone <->
   exists status,
     last (omap status_of urls) = Some status /\ status <> 404) /\
  (outcome (domain_of address) = Ret no_domain <->
   last (omap status_of urls) = None \/
   last (omap status_of urls) = Some 404).
Proof.
  intros Hsettings Htrue Hurls Hfail.
  rewrite (get_domain_run _ _ Hsettings), Htrue, Hurls. simpl.
  rewrite (fetch_exhausted _ _ Hfail).
  assert (Hall : Forall (fun url => status_of url = Some 404) urls ->
            last (omap status_of urls) = None \/
            last (omap status_of urls) = Some 404).
  { intros H404. destruct (last (omap status_of urls)) as [status|] eqn:Hlast;
      [right|by left].
    apply last_Some_elem_of, list_elem_of_omap in Hlast
      as (url & Hurl & Hstatus).
    rewrite Forall_forall in H404. specialize (H404 url Hurl). congruence. }
  destruct (last (omap status_of urls)) as [status|].
  - destruct (Z.eqb_spec status 404) as [->|Hne]; simpl.
    + split; [done|]. split; [|by split; [right|]].
      split; [done|]. by intros (? & [= <-] & ?).
    + split; [|split].
      * intros H404. destruct (Hall H404) as [|[= ->]]; done.
      * split; [|done]. intros _. by exists status.
      * split; [done|]. by intros [|[= ->]].
  - split; [done|]. split; [|by split; [left|]].
    split; [done|]. by intros (? & ? & _).
Qed.

(** *** The merger *)

(** The first field of the list with a true value wins. *)
Lemma pick_best_first before key after (result : gmap string pyval) :
  Forall (fun k => truthy (field result k) = false) before ->
  truthy (field result key) = true ->
  pick_best (before ++ key :: after) result = field result key.
Proof.
  intros Hbefore Hkey.
  induction Hbefore as [|k before Hk _ IH]; cbn [app pick_best].
  - by rewrite Hkey.
  - by rewrite Hk.
Qed.

(** With no such field the result is the empty string. *)
Lemma pick_best_none keys (result : gmap string pyval) :
  Forall (fun k => truthy (field result k) = false) keys ->
  pick_best keys result = PStr "".
Proof.
  induction 1 as [|k keys Hk _ IH]; cbn [pick_best]; [done|].
  by rewrite Hk.
Qed.

(** X15.  The merger, for any list of fields: the value of the first
    field of the list that has a true value in the dict; a missing field,
    [None], an empty string or an empty list do not count.  When no field
    of the list has a true value, the empty string. *)
Theorem pick_best_first_true_field keys (result : gmap string pyval) :
  (forall before key after,
     keys = before ++ key :: after ->
     Forall (fun k => truthy (field result k) = false) before ->
     truthy (field result key) = true ->
     pick_best keys result = field result key /\
     result !! key = Some (pick_best keys result)) /\
  (Forall (fun k => truthy (field result k) = false) keys ->
   pick_best keys result = PStr "").
Proof.
  split; [|apply pick_best_none].
  intros before key after -> Hbefore Hkey.
  rewrite (pick_best_first _ _ _ _ Hbefore Hkey). split; [done|].
  unfold field in *. by destruct (result !! key).
Qed.

(** The order of [get_any_name]: name, then nickname, then domain. *)
Lemma pick_best_priority (result : gmap string pyval) :
  pick_best ["name"; "nickname"; "domain"] result =
  if truthy (field result "name") then field result "name"
  else if truthy (field result "nickname") then field result "nickname"
  else if truthy (field result "domain") then field result "domain"
  else PStr "".
Proof. done. Qed.

(** *** The coordinator *)

(** Without [raise_error] the wait ends normally, however the greenlets
    ended. *)
Lemma joinall_two (g1 g2 : greenlet) in_time h :
  joinall [g1; g2] in_time false h =
  (Ret tt,
   after_greenlet (default false (in_time !! 1%nat)) g2
     (after_greenlet (default false (in_time !! 0%nat)) g1 h)).
Proof.
  destruct in_time as [|[] [|[] ?]]; cbn [joinall]; try done;
    unfold bind, run_to_end, after_greenlet;
    cbn [lookup list_lookup default id];
    repeat (match goal with
            | |- context [match ?r with Ret _ => _ | Raise _ => _ end] =>
                destruct r
            end; cbn [fst snd]);
    try done.
Qed.


Lemma get_any_name_run address in_time h :
  ADDRESS_DB !! address = None ->
  resolve address in_time h =
  let h0 :=
    {| redis_cache := redis_cache h; channel := ∅; trace := trace h |} in
  let h1 :=
    after_greenlet (default false (in_time !! 0%nat))
      (cachify domain_of (KStr "domain") address) h0 in
  let h2 :=
    after_greenlet (default false (in_time !! 1%nat))
      (cachify nickname_of (KStr "nickname") address) h1 in
  (Ret (pick_best ["name"; "nickname"; "domain"] (channel h2)), h2).
Proof.
  intros Hunknown. unfold get_any_name. rewrite Hunknown.
  unfold bind at 1. unfold new_dict. unfold bind at 1.
  unfold run_address_resolver. by rewrite joinall_two.
Qed.

Lemma after_greenlet_writes_within ran func key address keys h :
  tuplify_key key ⊆ keys ->
  writes_within address keys h
    (after_greenlet ran (cachify func key address) h).
Proof.
  intros Hsub. destruct ran; [|apply writes_within_refl].
  eapply writes_within_mono, cachify_writes_within. done.
Qed.

(** A request that is not short-circuited writes the fields [domain] and
    [nickname] at most, into a dict that starts empty. *)
Lemma get_any_name_writes_within address in_time h :
  ADDRESS_DB !! address = None ->
  writes_within address ["domain"; "nickname"]
    {| redis_cache := redis_cache h; channel := ∅; trace := trace h |}
    (resolve address in_time h).2.
Proof.
  intros Hunknown. rewrite get_any_name_run by done. cbn zeta. cbn [snd].
  eapply writes_within_trans; apply after_greenlet_writes_within;
    intros k ->%list_elem_of_singleton; [left | right; left].
Qed.

(** The field [name] is never in the shared dict, so the merger chooses
    between the nickname and the domain. *)
Lemma get_any_name_picks_nickname_or_domain address in_time h :
  ADDRESS_DB !! address = None ->
  (resolve address in_time h).1 =
  Ret (pick_best ["nickname"; "domain"]
         (channel (resolve address in_time h).2)).
Proof.
  intros Hunknown.
  destruct (get_any_name_writes_within address in_time h Hunknown)
    as (Hdict & _).
  assert (Hname : channel (resolve address in_time h).2 !! "name" = None).
  { rewrite Hdict; [done|]. intros Hin.
    repeat (apply elem_of_cons in Hin as [[=]|Hin]).
    by apply elem_of_nil in Hin. }
  revert Hname. rewrite get_any_name_run by done. cbn zeta. cbn [fst snd].
  intros Hname. cbn [pick_best]. unfold field at 1. by rewrite Hname.
Qed.

(** X14.  When the wait is over before any greenlet has run to its end,
    the request for an address that is not well known resolves to the
    empty string. *)
Lemma get_any_name_nothing_in_time address in_time h :
  ADDRESS_DB !! address = None ->
  Forall (fun ran => ran = false) in_time ->
  (resolve address in_time h).1 = Ret (PStr "").
Proof.
  intros Hunknown Hlate. rewrite get_any_name_run by done.
  assert (Hnth : forall i, default false (in_time !! i) = false).
  { intros i. destruct (in_time !! i) as [ran|] eqn:Hi; [|done].
    rewrite Forall_forall in Hlate. apply Hlate.
    by eapply list_elem_of_lookup_2. }
  cbn zeta. by rewrite !Hnth.
Qed.

(** C10.  The domain wrapper is registered under the one key [domain],
    so zipping drops the x-name of a [(domain, x-name)] result; and a
    request never writes the field [name]: the shared dict has no [name]
    (for a well-known address there is no shared dict, and the heap is
    left alone), the cache entry [name] of the address is as before, no
    [setex] for it is issued, and the same holds of any single run of
    the two wrappers, in time or not. *)
Theorem get_any_name_never_writes_name address in_time h :
  let h' := (resolve address in_time h).2 in
  (forall domain x_name,
     zip (tuplify_key (KStr "domain")) (tuplify (PTuple [domain; x_name]))
     = [("domain", domain)]) /\
  (match ADDRESS_DB !! address with
   | None => channel h' !! "name" = None
   | Some _ => h' = h
   end) /\
  redis_get (redis_cache h') (cache_key address "name")
    = redis_get (redis_cache h) (cache_key address "name") /\
  (forall ttl v,
     RedisSetex (cache_key address "name") ttl v ∉ new_events h h') /\
  (forall h1,
     writes_within address ["domain"] h1
       (cachify domain_of (KStr "domain") address h1).2 /\
     writes_within address ["nickname"] h1
       (cachify nickname_of (KStr "nickname") address h1).2).
Proof.
  intros h'. subst h'. split; [done|].
  assert (Hname : "name" ∉ ["domain"; "nickname"]).
  { intros Hin. repeat (apply elem_of_cons in Hin as [[=]|Hin]).
    by apply elem_of_nil in Hin. }
  assert (Hruns : forall h1,
            writes_within address ["domain"] h1
              (cachify domain_of (KStr "domain") address h1).2 /\
            writes_within address ["nickname"] h1
              (cachify nickname_of (KStr "nickname") address h1).2).
  { intros h1. split.
    - apply (cachify_writes_within _ (KStr "domain")).
    - apply (cachify_writes_within _ (KStr "nickname")). }
  destruct (ADDRESS_DB !! address) as [name|] eqn:Hknown.
  - unfold get_any_name. rewrite Hknown. unfold ret.
    cbn [snd]. split; [done|]. split; [done|]. split; [|done].
    intros ttl v. unfold new_events. rewrite drop_all. apply not_elem_of_nil.
  - destruct (get_any_name_writes_within address in_time h Hknown)
      as (Hdict & Hcache & t & Htrace & Hsetex).
    split; [by rewrite (Hdict "name" Hname)|].
    split; [by rewrite (Hcache "name" Hname)|].
    split; [|done].
    intros ttl v Hin. apply Hname, (Hsetex "name" ttl v).
    unfold new_events in Hin. cbn [trace] in Htrace.
    by rewrite Htrace, drop_app_length in Hin.
Qed.




End Properties.

(** ** A wrapper with a single key *)

Lemma cachify_single_run func k address h :
  cachify func (KStr k) address h =
  let ck := cache_key address k in
  match redis_get (redis_cache h) ck with
  | Some w =>
      (Ret tt,
       {| redis_cache := redis_cache h;
          channel := <[k := w]> (channel h);
          trace := trace h ++ [RedisGet ck] |})
  | None =>
      let called :=
        trace h ++ RedisGet ck :: Invoke [k] address
                   :: (http_event <$> requests (func address)) in
      match first_value (outcome (func address)) with
      | Some w =>
          (Ret tt,
           {| redis_cache := redis_setex (redis_cache h) ck CACHE_TIMEOUT w;
              channel := <[k := w]> (channel h);
              trace := called ++ [RedisSetex ck CACHE_TIMEOUT w] |})
      | None =>
          (match outcome (func address) with
           | Raise e => Raise e
           | Ret _ => Ret tt
           end,
           {| redis_cache := redis_cache h; channel := channel h;
              trace := called |})
      end
  end.
Proof.
  rewrite cachify_run. cbn [tuplify_key cached_fields]. cbn zeta.
  destruct (redis_get (redis_cache h) (cache_key address k)) as [w|].
  - unfold dict_truthy.
    rewrite map_size_insert_None, map_size_empty by apply lookup_empty.
    cbn [Nat.eqb negb]. by rewrite insert_empty, <- insert_union_singleton_l.
  - unfold dict_truthy. rewrite map_size_empty. cbn [Nat.eqb negb].
    destruct (outcome (func address)) as [v|e]; [|done].
    destruct v as [| | | |l|l|]; try done.
    destruct l; [|done]. cbn. by rewrite app_nil_r.
Qed.

(** ** What the resolvers ask the network *)

Lemma requests_bind {A B} (m : IO A) (f : A -> IO B) :
  requests (io_bind m f) =
  match outcome m with
  | Ret a => requests m ++ requests (f a)
  | Raise e => requests m
  end.
Proof.
  unfold outcome, requests, io_bind. destruct m as [t [a|e]]; cbn;
    [|reflexivity].
  destruct (f a); reflexivity.
Qed.

Lemma requests_lift {A} (r : result A) : requests (io_lift r) = [].
Proof. done. Qed.

Lemma requests_ret {A} (a : A) : requests (io_ret a) = [].
Proof. done. Qed.

Section Requests.

Variable config : configuration.
Variable requests_get : string -> bool -> http_result.
Variable rippletxt_get_urls : pyval -> result (list string).
Variable rippletxt_loads : string -> result (list (string * list string)).
Variable py_str : pyval -> string.

Local Abbreviation domain_of :=
  (get_domain config requests_get rippletxt_get_urls rippletxt_loads).
Local Abbreviation nickname_of := (get_nickname requests_get py_str).
Local Abbreviation resolve :=
  (get_any_name config requests_get rippletxt_get_urls rippletxt_loads
     py_str).
Local Abbreviation fetch := (fetch_ripple_txt requests_get).
Local Abbreviation status_of := (candidate_status requests_get).

Lemma requests_http_get url verify :
  requests (http_get requests_get url verify) = [(url, verify)].
Proof. done. Qed.

Lemma requests_candidate url :
  requests (except_RequestException (http_get requests_get url true))
  = [(url, true)].
Proof.
  unfold except_RequestException, http_get, requests. cbn.
  by destruct (requests_get url true).
Qed.

Lemma fetch_requests_exhausted urls possible_temp_error :
  Forall (fun url => status_of url <> Some 200) urls ->
  requests (fetch urls possible_temp_error) = (fun url => (url, true)) <$> urls.
Proof.
  intros Hfail. revert possible_temp_error.
  induction Hfail as [|url urls Hurl _ IH]; intros flag; [done|].
  cbn [fetch_ripple_txt].
  rewrite requests_bind, (outcome_candidate requests_get), requests_candidate.
  unfold candidate_status in Hurl.
  destruct (requests_get url true) as [|r]; [by rewrite IH|].
  assert ((status_code r =? 200) = false) as ->.
  { apply Z.eqb_neq. congruence. }
  cbn [negb]. by rewrite IH.
Qed.

(** X1.  The loop over the ripple.txt candidates asks them in order, each
    with certificate verification on, and stops at the first that answers
    200: the candidates after it are not asked.  When none answers 200,
    every candidate is asked once. *)
Theorem fetch_asks_until_first_200 urls possible_temp_error :
  (forall before url after doc,
     urls = before ++ url :: after ->
     Forall (fun url' => status_of url' <> Some 200) before ->
     requests_get url true = Answer doc ->
     status_code doc = 200 ->
     requests (fetch urls possible_temp_error)
     = (fun url' => (url', true)) <$> (before ++ [url])) /\
  (Forall (fun url => status_of url <> Some 200) urls ->
   requests (fetch urls possible_temp_error)
   = (fun url => (url, true)) <$> urls).
Proof.
  split; [|apply fetch_requests_exhausted].
  intros before url after doc -> Hfail Hdoc Hstatus.
  revert possible_temp_error.
  induction Hfail as [|url' before Hurl _ IH]; intros flag;
    cbn [app fetch_ripple_txt];
    rewrite requests_bind, (outcome_candidate requests_get),
      requests_candidate.
  - by rewrite Hdoc, Hstatus.
  - unfold candidate_status in Hurl.
    destruct (requests_get url' true) as [|r]; [by rewrite IH|].
    assert ((status_code r =? 200) = false) as ->.
    { apply Z.eqb_neq. congruence. }
    cbn [negb]. by rewrite IH.
Qed.

Lemma fetch_requests_verify urls possible_temp_error :
  Forall (fun r : request => r.2 = true)
    (requests (fetch urls possible_temp_error)).
Proof.
  revert possible_temp_error.
  induction urls as [|url urls IH]; intros flag; [constructor|].
  cbn [fetch_ripple_txt].
  rewrite requests_bind, (outcome_candidate requests_get), requests_candidate.
  constructor; [done|].
  destruct (requests_get url true) as [|r]; [apply IH|].
  destruct (negb (status_code r =? 200)); [apply IH|constructor].
Qed.

Lemma fetch_break_inv urls possible_temp_error doc :
  outcome (fetch urls possible_temp_error) = Ret (Break doc) ->
  exists url,
    url ∈ urls /\ requests_get url true = Answer doc /\ status_code doc = 200.
Proof.
  revert possible_temp_error.
  induction urls as [|url urls IH]; intros flag; [done|].
  cbn [fetch_ripple_txt]. rewrite outcome_bind, outcome_candidate.
  destruct (requests_get url true) as [|r] eqn:Hget.
  - intros (url' & Hin & Hrest)%IH. exists url'. split; [by right|done].
  - destruct (Z.eqb_spec (status_code r) 200) as [Hstatus|_]; cbn [negb].
    + intros [= <-]. exists url. split; [left|done].
    + intros (url' & Hin & Hrest)%IH. exists url'. split; [by right|done].
Qed.

(** X2.  What [get_domain] can return: [None], the pair of empty
    strings, or a pair whose first component is the non-empty domain of
    the account settings; and the last only when one of the candidates of
    that domain answered 200 with a ripple.txt that lists the address, the
    second component being the x-name section of that file, or the empty
    string when the file has none. *)
Theorem get_domain_returns_vouched_domain_only address v :
  outcome (domain_of address) = Ret v ->
  v = PNone \/ v = PTuple [PStr ""; PStr ""] \/
  exists domain urls url doc cfg,
    v = PTuple [domain;
                match assoc "x-name" cfg with
                | Some lines => PList (PStr <$> lines)
                | None => PStr ""
                end] /\
    settings_domain config requests_get address domain /\
    truthy domain = true /\
    rippletxt_get_urls domain = Ret urls /\
    url ∈ urls /\
    requests_get url true = Answer doc /\
    status_code doc = 200 /\
    rippletxt_loads (text doc) = Ret cfg /\
    address ∈ default [] (assoc "accounts" cfg).
Proof.
  unfold get_domain. rewrite outcome_bind, outcome_http_get.
  destruct (requests_get _ _) as [|r] eqn:Hget; [done|].
  destruct (Z.eqb_spec (status_code r) 200) as [Hstatus|_]; cbn [negb];
    [|intros [= <-]; by left].
  unfold response_json. rewrite outcome_bind, outcome_lift.
  destruct (json r) as [body|] eqn:Hjson; [|done].
  rewrite outcome_bind, outcome_lift.
  destruct (subscript body "success") as [success|] eqn:Hsuccess; [|done].
  destruct (truthy success) eqn:Htrue; cbn [negb];
    [|intros [= <-]; by left].
  rewrite outcome_bind, outcome_lift, outcome_bind, outcome_lift.
  destruct (subscript body "settings") as [settings|] eqn:Hsettings; [|done].
  rewrite outcome_bind, outcome_lift.
  destruct (dict_get settings "domain" PNone) as [domain|] eqn:Hdomain;
    [|done].
  assert (Hsd : settings_domain config requests_get address domain).
  { by exists r, body, success, settings. }
  destruct (truthy domain) eqn:Hnonempty; cbn [negb];
    [|intros [= <-]; right; by left].
  rewrite outcome_bind, outcome_lift.
  destruct (rippletxt_get_urls domain) as [urls|] eqn:Hurls; [|done].
  rewrite outcome_bind.
  destruct (outcome (fetch urls false)) as [[doc|flag]|] eqn:Hfetch; [| |done].
  - rewrite outcome_bind, outcome_lift.
    destruct (rippletxt_loads (text doc)) as [cfg|] eqn:Hcfg; [|done].
    destruct (bool_decide _) eqn:Hlisted; cbn [negb];
      intros [= <-]; [|right; by left].
    right; right.
    apply fetch_break_inv in Hfetch as (url & Hin & Hdoc & H200).
    apply bool_decide_eq_true_1 in Hlisted.
    by exists domain, urls, url, doc, cfg.
  - destruct flag; intros [= <-]; [by left | right; by left].
Qed.

(** X3.  With a domain in the settings and a ripple.txt, at the first
    candidate answering 200, that lists the address, [get_domain] returns
    the domain with the x-name section of the file, or with the empty
    string when the file has no such section. *)
Theorem get_domain_verified address domain before url after doc cfg :
  settings_domain config requests_get address domain ->
  truthy domain = true ->
  rippletxt_get_urls domain = Ret (before ++ url :: after) ->
  Forall (fun url' => status_of url' <> Some 200) before ->
  requests_get url true = Answer doc ->
  status_code doc = 200 ->
  rippletxt_loads (text doc) = Ret cfg ->
  address ∈ default [] (assoc "accounts" cfg) ->
  outcome (domain_of address) =
  Ret (PTuple [domain;
               match assoc "x-name" cfg with
               | Some lines => PList (PStr <$> lines)
               | None => PStr ""
               end]).
Proof.
  intros Hsettings Htrue Hurls Hbefore Hdoc Hstatus Hcfg Hlisted.
  rewrite (get_domain_run _ _ _ _ _ _ Hsettings), Htrue, Hurls. cbn [negb].
  rewrite (fetch_break _ _ _ _ _ _ Hbefore Hdoc Hstatus), Hcfg.
  by rewrite bool_decide_eq_true_2.
Qed.

(** X4.  A settings answer with a status other than 200, or with a JSON
    body whose [success] is not true, ends [get_domain] with [None] after
    that one request: no ripple.txt candidate is asked. *)
Theorem get_domain_unusable_settings address r :
  requests_get (settings_url config address)
    (negb (disable_ssl_verify config)) = Answer r ->
  status_code r <> 200 \/
    (exists body success,
       json r = Some body /\ subscript body "success" = Ret success /\
       truthy success = false) ->
  outcome (domain_of address) = Ret PNone /\
  requests (domain_of address)
  = [(settings_url config address, negb (disable_ssl_verify config))].
Proof.
  intros Hget Hbad. unfold get_domain.
  rewrite outcome_bind, requests_bind, outcome_http_get, requests_http_get,
    Hget.
  destruct Hbad as [Hstatus|(body & success & Hjson & Hsuccess & Hfalse)].
  - apply Z.eqb_neq in Hstatus. by rewrite Hstatus.
  - destruct (negb (status_code r =? 200)); [done|].
    unfold response_json. rewrite Hjson. split.
    + io_step. io_step with Hsuccess. by rewrite Hfalse.
    + rewrite requests_bind, outcome_lift, requests_lift. cbn [app].
      rewrite requests_bind, outcome_lift, requests_lift, Hsuccess, Hfalse.
      done.
Qed.

(** X5.  A settings answer with status 200 whose body is not the
    expected JSON makes [get_domain] raise instead of returning [None]: a
    body that is not JSON raises [ValueError]; a JSON object without
    [success], or without [settings] once [success] is true, raises
    [KeyError]; a JSON body that is not an object raises [TypeError]; and
    [settings] that is not an object raises [AttributeError]. *)
Theorem get_domain_malformed_settings address r :
  requests_get (settings_url config address)
    (negb (disable_ssl_verify config)) = Answer r ->
  status_code r = 200 ->
  (json r = None -> outcome (domain_of address) = Raise ValueError) /\
  (forall fields,
     json r = Some (PDict fields) -> assoc "success" fields = None ->
     outcome (domain_of address) = Raise KeyError) /\
  (forall body,
     json r = Some body -> (forall fields, body <> PDict fields) ->
     outcome (domain_of address) = Raise TypeError) /\
  (forall fields success,
     json r = Some (PDict fields) ->
     assoc "success" fields = Some success -> truthy success = true ->
     (assoc "settings" fields = None ->
      outcome (domain_of address) = Raise KeyError) /\
     (forall settings,
        assoc "settings" fields = Some settings ->
        (forall entries, settings <> PDict entries) ->
        outcome (domain_of address) = Raise AttributeError)).
Proof.
  intros Hget Hstatus. unfold get_domain.
  rewrite outcome_bind, outcome_http_get, Hget, Hstatus. cbn.
  unfold response_json. split; [|split; [|split]].
  - intros ->. by io_step.
  - intros fields -> Hmissing. io_step. io_step. by rewrite Hmissing.
  - intros body -> Hshape. io_step. io_step.
    destruct body; try done. by destruct (Hshape d).
  - intros fields success -> Hsuccess Htrue. io_step. io_step.
    rewrite Hsuccess. cbn. rewrite Htrue. cbn. io_step. io_step. split.
    + intros Hmissing. by rewrite Hmissing.
    + intros settings Hsettings Hshape. rewrite Hsettings. cbn. io_step.
      destruct settings; try done. by destruct (Hshape d).
Qed.

(** X6.  A directory answer with status 200 and an odd body: a body that
    is not JSON makes [get_nickname] raise [ValueError], a JSON body that
    is not an object [AttributeError]; a [username] without truth value
    (null, false, 0, an empty list or object) gives the empty string, as
    an empty name does; any other [username] that is not a string is put
    behind the marker through [str]. *)
Theorem get_nickname_odd_bodies address r :
  requests_get ("https://id.ripple.com/v1/user/" +:+ address) true
    = Answer r ->
  status_code r = 200 ->
  (json r = None -> outcome (nickname_of address) = Raise ValueError) /\
  (forall body,
     json r = Some body -> (forall fields, body <> PDict fields) ->
     outcome (nickname_of address) = Raise AttributeError) /\
  (forall fields username,
     json r = Some (PDict fields) ->
     assoc "username" fields = Some username ->
     (truthy username = false ->
      outcome (nickname_of address) = Ret (PStr "")) /\
     (truthy username = true -> (forall name, username <> PStr name) ->
      (forall items, username <> PTuple items) ->
      outcome (nickname_of address) = Ret (PStr ("~" +:+ py_str username)))).
Proof.
  intros Hget Hstatus. unfold get_nickname.
  rewrite outcome_bind, outcome_http_get, Hget, Hstatus. cbn.
  unfold response_json. split; [|split].
  - intros ->. by io_step.
  - intros body -> Hshape. io_step. io_step.
    destruct body; try done. by destruct (Hshape d).
  - intros fields username -> Huser. io_step. io_step. rewrite Huser. cbn.
    split.
    + by intros ->.
    + intros -> Hshape _. destruct username; try done. by destruct (Hshape s).
Qed.

(** X7.  Certificate verification is switched off for the settings
    request only, and exactly when [DISABLE_SSL_VERIFY] is set to a
    non-empty string, whatever the string; every ripple.txt request, and
    the one request of [get_nickname], has it on. *)
Theorem verification_off_for_settings_only address :
  (exists rest,
     requests (domain_of address)
     = (settings_url config address, negb (disable_ssl_verify config)) :: rest
     /\ Forall (fun r : request => r.2 = true) rest) /\
  requests (nickname_of address)
  = [("https://id.ripple.com/v1/user/" +:+ address, true)] /\
  (disable_ssl_verify config = true <->
   exists s, DISABLE_SSL_VERIFY config = Some s /\ s <> "").
Proof.
  split; [|split].
  - unfold get_domain. rewrite requests_bind, requests_http_get. cbn [app].
    destruct (outcome (http_get _ _ _)) as [r|]; [|by exists []].
    eexists. split; [done|].
    destruct (negb (status_code r =? 200)); [constructor|].
    unfold response_json.
    rewrite requests_bind, outcome_lift, requests_lift. cbn [app].
    destruct (json r) as [body|]; [|constructor].
    rewrite requests_bind, outcome_lift, requests_lift. cbn [app].
    destruct (subscript body "success") as [success|]; [|constructor].
    destruct (negb (truthy success)); [constructor|].
    rewrite requests_bind, outcome_lift, requests_lift. cbn [app].
    rewrite requests_bind, outcome_lift, requests_lift. cbn [app].
    destruct (subscript body "settings") as [settings|]; [|constructor].
    rewrite requests_bind, outcome_lift, requests_lift. cbn [app].
    destruct (dict_get settings "domain" PNone) as [domain|]; [|constructor].
    destruct (negb (truthy domain)); [constructor|].
    rewrite requests_bind, outcome_lift, requests_lift. cbn [app].
    destruct (rippletxt_get_urls domain) as [urls|]; [|constructor].
    rewrite requests_bind.
    pose proof (fetch_requests_verify urls false) as Hfetch.
    destruct (outcome (fetch urls false)) as [[doc|flag]|]; [| |done].
    + apply Forall_app. split; [done|].
      rewrite requests_bind, outcome_lift, requests_lift. cbn [app].
      destruct (rippletxt_loads (text doc)) as [cfg|]; [|constructor].
      destruct (negb _); constructor.
    + apply Forall_app. split; [done|]. destruct flag; constructor.
  - unfold get_nickname. rewrite requests_bind, requests_http_get.
    destruct (outcome (http_get _ _ _)) as [r|]; [|done].
    destruct (negb (status_code r =? 200)); [done|].
    unfold response_json.
    rewrite requests_bind, outcome_lift, requests_lift. cbn [app].
    destruct (json r) as [data|]; [|done].
    rewrite requests_bind, outcome_lift, requests_lift. cbn [app].
    by destruct (dict_get data "username" (PStr "")).
  - unfold disable_ssl_verify.
    destruct (DISABLE_SSL_VERIFY config) as [s|].
    + cbn. destruct s; cbn; split; try done.
      * by intros (? & [= <-] & ?).
      * intros _. by eexists.
    + split; [done|]. by intros (? & ? & _).
Qed.

End Requests.

(** ** What a wrapper sends to the cache *)

Lemma filter_setex_gets address (keys : list string) :
  filter is_setex (RedisGet ∘ cache_key address <$> keys) = [].
Proof.
  induction keys as [|k keys IH]; [done|].
  rewrite fmap_cons, filter_cons_False; [exact IH | by intros []].
Qed.

Lemma filter_setex_http (t : list request) :
  filter is_setex (http_event <$> t) = [].
Proof.
  induction t as [|r t IH]; [done|].
  rewrite fmap_cons, filter_cons_False; [exact IH | by intros []].
Qed.

Lemma filter_setex_written address (kvs : list (string * pyval)) :
  filter is_setex (setex_event address <$> kvs) = setex_event address <$> kvs.
Proof.
  induction kvs as [|kv kvs IH]; [done|].
  rewrite fmap_cons, filter_cons_True; [by rewrite IH | exact I].
Qed.

Lemma filter_setex_called address keys (t : list request) :
  filter is_setex
    ((RedisGet ∘ cache_key address <$> keys)
       ++ Invoke keys address :: (http_event <$> t)) = [].
Proof.
  rewrite filter_app, filter_setex_gets, filter_cons_False by (by intros []).
  apply filter_setex_http.
Qed.

Lemma cachify_new_events func key address h :
  new_events h (cachify func key address h).2 =
  let keys := tuplify_key key in
  let gets := RedisGet ∘ cache_key address <$> keys in
  if dict_truthy (cached_fields (redis_cache h) address keys ∅) then gets
  else
    (gets ++ Invoke keys address :: (http_event <$> requests (func address)))
      ++ (setex_event address <$> written keys (outcome (func address))).
Proof.
  rewrite cachify_run. cbn zeta.
  destruct (dict_truthy _); cbn [snd]; [apply new_events_app|].
  destruct (outcome (func address)) as [v|e];
    cbn [snd written fmap list_fmap];
    [|by rewrite app_nil_r, new_events_app].
  destruct v; cbn [snd written fmap list_fmap];
    rewrite ?app_nil_r, <- ?app_assoc, new_events_app; by rewrite <- ?app_assoc.
Qed.

(** X8.  The [setex] commands of one wrapper run.  None is sent when a
    field was found in the cache, nor when the resolver returns [None] or
    raises.  Otherwise they are those of the pairs of keys and returned
    values, in order, each with [CACHE_TIMEOUT]: as many as the shorter of
    the two tuples has components, so none for an empty tuple. *)
Theorem cachify_cache_writes func key address h :
  let keys := tuplify_key key in
  let sent := filter is_setex (new_events h (cachify func key address h).2) in
  (~ all_miss (redis_cache h) address keys -> sent = []) /\
  (no_answer (outcome (func address)) -> sent = []) /\
  (forall v,
     all_miss (redis_cache h) address keys ->
     outcome (func address) = Ret v -> v <> PNone ->
     sent = setex_event address <$> zip keys (tuplify v) /\
     length sent = Nat.min (length keys) (length (tuplify v))).
Proof.
  intros keys sent. subst sent. rewrite cachify_new_events. fold keys.
  cbn zeta.
  pose proof (cached_fields_empty (redis_cache h) address keys) as Hempty.
  fold (all_miss (redis_cache h) address keys) in Hempty.
  destruct (dict_truthy _) eqn:Hhit.
  - rewrite filter_setex_gets. split; [done|]. split; [done|].
    intros v Hmiss%Hempty. done.
  - rewrite filter_app, filter_setex_called, filter_setex_written.
    cbn [app]. split; [|split].
    + intros Hsome. destruct Hsome. by apply Hempty.
    + by destruct (outcome (func address)) as [[]|].
    + intros v _ -> Hvalue.
      assert (written keys (Ret v) = zip keys (tuplify v)) as ->
        by by destruct v.
      split; [done|]. rewrite length_fmap. apply length_zip_with.
Qed.

Lemma setex_all_fake address kvs : setex_all address FakeRedis kvs = FakeRedis.
Proof. induction kvs as [|kv kvs IH]; [done|]. apply IH. Qed.

(** X9.  Without a redis URL the cache is [FakeRedis]: every wrapper run
    then invokes its resolver, whatever was resolved before, passes on
    its exception if it raises, and leaves the cache as it is. *)
Theorem fake_redis_always_invokes func key address h :
  redis_cache h = FakeRedis ->
  Invoke (tuplify_key key) address
    ∈ new_events h (cachify func key address h).2 /\
  redis_cache (cachify func key address h).2 = FakeRedis /\
  (cachify func key address h).1 =
    match outcome (func address) with
    | Raise e => Raise e
    | Ret _ => Ret tt
    end.
Proof.
  intros Hfake.
  assert (Hmiss : all_miss (redis_cache h) address (tuplify_key key)).
  { intros k _. by rewrite Hfake. }
  apply cached_fields_empty in Hmiss. split.
  - rewrite cachify_new_events. cbn zeta. rewrite Hmiss.
    apply elem_of_app. left. apply elem_of_app. right. left.
  - rewrite cachify_run. cbn zeta. rewrite Hmiss, Hfake.
    destruct (outcome (func address)) as [[]|]; cbn [fst snd redis_cache];
      by rewrite ?setex_all_fake.
Qed.

(** X10.  A wrapper with one key, on a real cache.  Once a run has
    resolved a value for its field, the empty string included, a run for
    the same address and field on the cache as that run left it (the
    entry has not expired, nothing else has written in between) finds the
    entry, whatever its resolver and shared dict: it puts what the cache
    returns in the shared dict and ends there, with no resolver call, no
    request and no cache write. *)
Theorem cachify_resolved_field_is_served func func' k address h h2 store :
  redis_cache h = StrictRedis store ->
  redis_get (redis_cache h) (cache_key address k) = None ->
  is_Some (first_value (outcome (func address))) ->
  redis_cache h2 = redis_cache (cachify func (KStr k) address h).2 ->
  exists cached,
    redis_get (redis_cache h2) (cache_key address k) = Some cached /\
    cachify func' (KStr k) address h2 =
    (Ret tt,
     {| redis_cache := redis_cache h2;
        channel := <[k := cached]> (channel h2);
        trace := trace h2 ++ [RedisGet (cache_key address k)] |}).
Proof.
  intros Hstore Hmiss [w Hvalue] Hcache.
  rewrite cachify_single_run in Hcache. cbn zeta in Hcache.
  rewrite Hmiss, Hvalue, Hstore in Hcache. cbn in Hcache.
  assert (Hget : redis_get (redis_cache h2) (cache_key address k) = Some w).
  { rewrite Hcache. cbn. by rewrite lookup_insert_eq. }
  exists w. split; [done|].
  rewrite cachify_single_run. cbn zeta. by rewrite Hget.
Qed.

(** ** One request, and the next *)

Lemma after_single_channel ran func k address h :
  channel (after_greenlet ran (cachify func (KStr k) address) h) =
  match field_read (redis_cache h) address k ran (outcome (func address)) with
  | Some w => <[k := w]> (channel h)
  | None => channel h
  end.
Proof.
  unfold after_greenlet, field_read. destruct ran; [|done].
  rewrite cachify_single_run. cbn zeta.
  destruct (redis_get _ _); [done|].
  by destruct (first_value _).
Qed.

Lemma after_single_other ran func k k' address h :
  k' <> k ->
  redis_get (redis_cache (after_greenlet ran (cachify func (KStr k) address) h))
    (cache_key address k')
  = redis_get (redis_cache h) (cache_key address k').
Proof.
  intros Hne. unfold after_greenlet. destruct ran; [|done].
  destruct (cachify_writes_within func (KStr k) address h) as (_ & Hcache & _).
  apply Hcache. cbn. by intros ->%list_elem_of_singleton.
Qed.

Lemma after_single_cached func k address h store :
  redis_cache h = StrictRedis store ->
  redis_get (redis_cache (after_greenlet true (cachify func (KStr k) address) h))
    (cache_key address k)
  = field_read (redis_cache h) address k true (outcome (func address)) /\
  exists store',
    redis_cache (after_greenlet true (cachify func (KStr k) address) h)
    = StrictRedis store'.
Proof.
  intros Hstore. unfold after_greenlet, field_read.
  rewrite cachify_single_run. cbn zeta.
  destruct (redis_get (redis_cache h) (cache_key address k)) as [w|] eqn:Hget;
    cbn [snd redis_cache]; [by eauto|].
  destruct (first_value _) as [w|]; cbn [snd redis_cache]; [|by eauto].
  rewrite Hstore. cbn. rewrite lookup_insert_eq. by eauto.
Qed.

Section OneRequest.

Variable config : configuration.
Variable requests_get : string -> bool -> http_result.
Variable rippletxt_get_urls : pyval -> result (list string).
Variable rippletxt_loads : string -> result (list (string * list string)).
Variable py_str : pyval -> string.

Local Abbreviation domain_of :=
  (get_domain config requests_get rippletxt_get_urls rippletxt_loads).
Local Abbreviation nickname_of := (get_nickname requests_get py_str).
Local Abbreviation resolve :=
  (get_any_name config requests_get rippletxt_get_urls rippletxt_loads
     py_str).

Lemma get_any_name_channel address in_time h :
  ADDRESS_DB !! address = None ->
  let domain :=
    field_read (redis_cache h) address "domain"
      (default false (in_time !! 0%nat)) (outcome (domain_of address)) in
  let nickname :=
    field_read (redis_cache h) address "nickname"
      (default false (in_time !! 1%nat)) (outcome (nickname_of address)) in
  channel (resolve address in_time h).2 !! "name" = None /\
  channel (resolve address in_time h).2 !! "nickname" = nickname /\
  channel (resolve address in_time h).2 !! "domain" = domain.
Proof.
  intros Hunknown. cbn zeta.
  rewrite (get_any_name_run config requests_get rippletxt_get_urls
             rippletxt_loads py_str address in_time h Hunknown).
  cbn zeta. cbn [snd].
  rewrite !after_single_channel. cbn [redis_cache channel].
  assert (Hsame :
    forall ran r,
      field_read
        (redis_cache
           (after_greenlet (default false (in_time !! 0%nat))
              (cachify domain_of (KStr "domain") address)
              {| redis_cache := redis_cache h; channel := ∅;
                 trace := trace h |}))
        address "nickname" ran r
      = field_read (redis_cache h) address "nickname" ran r).
  { intros ran r. unfold field_read. by rewrite after_single_other. }
  rewrite Hsame.
  destruct (field_read _ _ "nickname" _ _) as [n|],
    (field_read _ _ "domain" _ _) as [d|];
    split_and!; by simplify_map_eq.
Qed.

(** X11.  The name a request resolves to, for an address that is not
    well known.  Each of the two fields is read from the cache if it is
    there, else taken from its resolver (the value returned, the first
    component for a tuple), and counts only if its greenlet ran to the end
    before the wait was over; a resolver that returns [None] or raises
    gives nothing.  The result is the nickname if it has a true value,
    else the domain if it has one, else the empty string. *)
Theorem get_any_name_result address in_time h :
  ADDRESS_DB !! address = None ->
  (resolve address in_time h).1 =
  Ret (best_of
         (field_read (redis_cache h) address "nickname"
            (default false (in_time !! 1%nat)) (outcome (nickname_of address)))
         (field_read (redis_cache h) address "domain"
            (default false (in_time !! 0%nat)) (outcome (domain_of address)))).
Proof.
  intros Hunknown.
  destruct (get_any_name_channel address in_time h Hunknown)
    as (Hname & Hnickname & Hdomain).
  revert Hname Hnickname Hdomain.
  rewrite (get_any_name_run config requests_get rippletxt_get_urls
             rippletxt_loads py_str address in_time h Hunknown).
  cbn zeta. cbn [fst snd]. intros Hname Hnickname Hdomain.
  rewrite pick_best_priority. unfold field, best_of.
  by rewrite Hname, Hnickname, Hdomain.
Qed.

Lemma get_any_name_cached address in_time h d n :
  ADDRESS_DB !! address = None ->
  redis_get (redis_cache h) (cache_key address "domain") = Some d ->
  redis_get (redis_cache h) (cache_key address "nickname") = Some n ->
  in_time !! 0%nat = Some true ->
  in_time !! 1%nat = Some true ->
  resolve address in_time h =
  (Ret (best_of (Some n) (Some d)),
   {| redis_cache := redis_cache h;
      channel := <["nickname" := n]> (<["domain" := d]> ∅);
      trace := trace h ++ [RedisGet (cache_key address "domain");
                           RedisGet (cache_key address "nickname")] |}).
Proof.
  intros Hunknown Hdomain Hnickname Hfirst Hsecond.
  rewrite (get_any_name_run config requests_get rippletxt_get_urls
             rippletxt_loads py_str address in_time h Hunknown).
  cbn zeta. rewrite Hfirst, Hsecond. cbn [default id]. unfold after_greenlet.
  rewrite !cachify_single_run. cbn zeta. cbn [redis_cache].
  rewrite Hdomain. cbn [snd redis_cache]. rewrite Hnickname.
  cbn [snd channel trace]. rewrite <- app_assoc. cbn [app].
  rewrite pick_best_priority. unfold field, best_of.
  by simplify_map_eq.
Qed.

Lemma get_any_name_leaves_cached address in_time h store :
  ADDRESS_DB !! address = None ->
  redis_cache h = StrictRedis store ->
  in_time !! 0%nat = Some true -> in_time !! 1%nat = Some true ->
  redis_get (redis_cache (resolve address in_time h).2)
    (cache_key address "domain")
  = field_read (redis_cache h) address "domain" true
      (outcome (domain_of address)) /\
  redis_get (redis_cache (resolve address in_time h).2)
    (cache_key address "nickname")
  = field_read (redis_cache h) address "nickname" true
      (outcome (nickname_of address)).
Proof.
  intros Hunknown Hstore Hfirst Hsecond.
  rewrite (get_any_name_run config requests_get rippletxt_get_urls
             rippletxt_loads py_str address in_time h Hunknown).
  cbn zeta. rewrite Hfirst, Hsecond. cbn [default id snd].
  set (h0 := {| redis_cache := redis_cache h; channel := ∅;
                trace := trace h |}).
  destruct (after_single_cached domain_of "domain" address h0 store Hstore)
    as (Hdomain & store1 & Hstore1).
  destruct (after_single_cached nickname_of "nickname" address _ store1
              Hstore1) as (Hnickname & _).
  split.
  - by rewrite after_single_other.
  - rewrite Hnickname. unfold field_read. by rewrite after_single_other.
Qed.

End OneRequest.

Section TwoRequests.

(** Two networks: the one the first request meets, and the one the next
    request meets. *)
Variable config config' : configuration.
Variable requests_get requests_get' : string -> bool -> http_result.
Variable rippletxt_get_urls rippletxt_get_urls'
  : pyval -> result (list string).
Variable rippletxt_loads rippletxt_loads'
  : string -> result (list (string * list string)).
Variable py_str py_str' : pyval -> string.

Local Abbreviation domain_of :=
  (get_domain config requests_get rippletxt_get_urls rippletxt_loads).
Local Abbreviation nickname_of := (get_nickname requests_get py_str).
Local Abbreviation resolve :=
  (get_any_name config requests_get rippletxt_get_urls rippletxt_loads
     py_str).
Local Abbreviation resolve' :=
  (get_any_name config' requests_get' rippletxt_get_urls' rippletxt_loads'
     py_str').

(** X12.  A request for an address whose two fields are in the cache,
    and whose two greenlets run to their end before the wait is over, is
    served from the cache: it reads the two entries and nothing else,
    invokes no resolver, issues no request, writes nothing to the cache,
    and resolves to the cached nickname if it has a true value, else to
    the cached domain, else to the empty string.  What the network would
    answer plays no part: on another network, with both greenlets in time
    again, result and heap are the same. *)
Theorem get_any_name_served_from_cache address in_time in_time' h d n :
  ADDRESS_DB !! address = None ->
  redis_get (redis_cache h) (cache_key address "domain") = Some d ->
  redis_get (redis_cache h) (cache_key address "nickname") = Some n ->
  in_time !! 0%nat = Some true -> in_time !! 1%nat = Some true ->
  in_time' !! 0%nat = Some true -> in_time' !! 1%nat = Some true ->
  (resolve address in_time h).1 = Ret (best_of (Some n) (Some d)) /\
  new_events h (resolve address in_time h).2
  = [RedisGet (cache_key address "domain");
     RedisGet (cache_key address "nickname")] /\
  redis_cache (resolve address in_time h).2 = redis_cache h /\
  resolve' address in_time' h = resolve address in_time h.
Proof.
  intros Hunknown Hdomain Hnickname Hfirst Hsecond Hfirst' Hsecond'.
  rewrite (get_any_name_cached config requests_get rippletxt_get_urls
             rippletxt_loads py_str address in_time h d n) by done.
  rewrite (get_any_name_cached config' requests_get' rippletxt_get_urls'
             rippletxt_loads' py_str' address in_time' h d n) by done.
  cbn [fst snd redis_cache]. by rewrite new_events_app.
Qed.

(** X13.  Two requests in a row on a real cache, the two greenlets of
    each running to their end before its wait is over.  When the first
    request found or resolved a value for each of the two fields (the
    empty string is one), the next request for the same address, on the
    cache as the first left it, finds both entries, whatever the network
    answers by then: it reads the two entries and nothing else, resolves
    to what the merger picks among the values the cache returns, and
    leaves the cache as it is. *)
Theorem get_any_name_twice address in_time in_time' h store :
  ADDRESS_DB !! address = None ->
  redis_cache h = StrictRedis store ->
  in_time !! 0%nat = Some true -> in_time !! 1%nat = Some true ->
  in_time' !! 0%nat = Some true -> in_time' !! 1%nat = Some true ->
  is_Some (field_read (redis_cache h) address "domain" true
             (outcome (domain_of address))) ->
  is_Some (field_read (redis_cache h) address "nickname" true
             (outcome (nickname_of address))) ->
  exists d n,
    redis_get (redis_cache (resolve address in_time h).2)
      (cache_key address "domain") = Some d /\
    redis_get (redis_cache (resolve address in_time h).2)
      (cache_key address "nickname") = Some n /\
    (resolve' address in_time' (resolve address in_time h).2).1
    = Ret (best_of (Some n) (Some d)) /\
    new_events (resolve address in_time h).2
      (resolve' address in_time' (resolve address in_time h).2).2
    = [RedisGet (cache_key address "domain");
       RedisGet (cache_key address "nickname")] /\
    redis_cache (resolve' address in_time' (resolve address in_time h).2).2
    = redis_cache (resolve address in_time h).2.
Proof.
  intros Hunknown Hstore Hfirst Hsecond Hfirst' Hsecond' [d Hd] [n Hn].
  destruct (get_any_name_leaves_cached config requests_get rippletxt_get_urls
              rippletxt_loads py_str address in_time h store)
    as (Hdomain & Hnickname); try done.
  rewrite Hd in Hdomain. rewrite Hn in Hnickname.
  exists d, n. split; [done|]. split; [done|].
  rewrite (get_any_name_cached config' requests_get' rippletxt_get_urls'
             rippletxt_loads' py_str' address in_time' _ d n) by done.
  cbn [fst snd redis_cache]. by rewrite new_events_app.
Qed.

End TwoRequests.

(** ** The theorems at work on the scenarios *)

Import Scenario.

(** Bitstamp is a well-known address: it resolves with the network down,
    and the heap stays as it is. *)
Lemma override_bypasses_cache_and_sources_witness :
  ADDRESS_DB !! "rvYAfWj5gh67oV6fW32ZzP3Aw4Eubs59B" = Some "Bitstamp" /\
  get_any_name defaults unreachable get_urls loads py_str
    "rvYAfWj5gh67oV6fW32ZzP3Aw4Eubs59B" [true; true] cold
  = (Ret (PStr "Bitstamp"), cold).
Proof.
  split; [reflexivity|].
  apply override_bypasses_cache_and_sources. reflexivity.
Defined.

(** The directory answers 503; it knows alice; it knows nobody; it has an
    empty username. *)
Lemma get_nickname_outcomes_witness :
  outcome (get_nickname error_then_404 py_str account) = Ret PNone /\
  outcome (get_nickname all_three py_str account) = Ret (PStr "~alice") /\
  outcome (get_nickname nothing_known py_str account) = Ret (PStr "") /\
  outcome (get_nickname not_listed py_str account) = Ret (PStr "").
Proof.
  split; [|split; [|split]].
  - refine (proj1 (get_nickname_outcomes error_then_404 py_str account
                     {| status_code := 503; text := ""; json := None |}
                     eq_refl) _).
    discriminate.
  - refine (proj1 (proj2 (get_nickname_outcomes all_three py_str account
                     {| status_code := 200; text := "";
                        json := Some (PDict [("username", PStr "alice")]) |}
                     eq_refl))
              [("username", PStr "alice")] "alice" eq_refl eq_refl eq_refl _).
    discriminate.
  - refine (proj2 (proj2 (get_nickname_outcomes nothing_known py_str account
                     {| status_code := 200; text := "";
                        json := Some (PDict []) |}
                     eq_refl))
              [] eq_refl eq_refl _).
    left. reflexivity.
  - refine (proj2 (proj2 (get_nickname_outcomes not_listed py_str account
                     {| status_code := 200; text := "";
                        json := Some (PDict [("username", PStr "")]) |}
                     eq_refl))
              [("username", PStr "")] eq_refl eq_refl _).
    right. reflexivity.
Defined.

Lemma settings_domain_with_domain network_rest :
  settings_domain defaults (network (settings with_domain :: network_rest))
    account (PStr "example.com").
Proof.
  exists {| status_code := 200; text := ""; json := Some with_domain |},
    with_domain, (PBool true), (PDict [("domain", PStr "example.com")]).
  repeat split; reflexivity.
Defined.

(** No domain in the settings; a ripple.txt, at the third candidate, that
    vouches for another account. *)
Lemma get_domain_definitive_negatives_witness :
  outcome (get_domain defaults nothing_known get_urls loads account)
    = Ret (PTuple [PStr ""; PStr ""]) /\
  outcome (get_domain defaults not_listed get_urls loads account)
    = Ret (PTuple [PStr ""; PStr ""]).
Proof.
  split.
  - refine (proj1 (get_domain_definitive_negatives defaults nothing_known
                     get_urls loads account PNone _) eq_refl).
    exists {| status_code := 200; text := ""; json := Some without_domain |},
      without_domain, (PBool true), (PDict []).
    repeat split; reflexivity.
  - refine (proj2 (get_domain_definitive_negatives defaults not_listed
                     get_urls loads account (PStr "example.com")
                     (settings_domain_with_domain _))
              ["https://ripple.example.com/ripple.txt";
               "https://www.example.com/ripple.txt"]
              "https://example.com/ripple.txt" []
              {| status_code := 200; text := "other"; json := None |}
              [("accounts", ["rNPRNzBB92BVpAhhZr4iXDTveCgV5Pofm9"])]
              eq_refl eq_refl _ eq_refl eq_refl eq_refl _).
    + repeat constructor; discriminate.
    + intros Hin. apply list_elem_of_singleton in Hin. discriminate.
Defined.

(** The claim of C4 fails when a 500 is followed by 404s: the first
    candidate fails with a status that is not 404, and the resolver still
    returns the definitive negative, not [None]. *)
Lemma get_domain_500_then_404_is_negative :
  candidate_status error_then_404 "https://ripple.example.com/ripple.txt"
    = Some 500 /\
  outcome (get_domain defaults error_then_404 get_urls loads account)
    = Ret (PTuple [PStr ""; PStr ""]) /\
  outcome (get_domain defaults error_then_404 get_urls loads account)
    <> Ret PNone.
Proof.
  split; [reflexivity|]. split; [reflexivity|]. discriminate.
Qed.

(** 404 then 500 then no connection: [None].  404 everywhere: the
    definitive negative. *)
Lemma get_domain_last_answer_decides_witness :
  outcome (get_domain defaults error_then_down get_urls loads account)
    = Ret PNone /\
  outcome (get_domain defaults all_404 get_urls loads account)
    = Ret no_domain.
Proof.
  split.
  - apply (proj1 (proj2 (get_domain_last_answer_decides defaults
                   error_then_down get_urls loads account
                   (PStr "example.com")
                   ["https://ripple.example.com/ripple.txt";
                    "https://www.example.com/ripple.txt";
                    "https://example.com/ripple.txt"]
                   (settings_domain_with_domain _) eq_refl eq_refl
                   ltac:(repeat constructor; discriminate)))).
    exists 500. split; [reflexivity | discriminate].
  - apply (proj1 (get_domain_last_answer_decides defaults
                   all_404 get_urls loads account
                   (PStr "example.com")
                   ["https://ripple.example.com/ripple.txt";
                    "https://www.example.com/ripple.txt";
                    "https://example.com/ripple.txt"]
                   (settings_domain_with_domain _) eq_refl eq_refl
                   ltac:(repeat constructor; discriminate))).
    repeat constructor.
Defined.

Lemma all_miss_cold keys : all_miss (redis_cache cold) account keys.
Proof. intros k _. reflexivity. Defined.

(** Only [domain] is cached and [name] is asked for as well: the resolver
    is not invoked, although [name] misses. *)
Lemma cachify_invokes_iff_no_field_cached_witness :
  (cachify domain_source (KTuple ["domain"; "name"]) account domain_cached).1
    = Ret tt /\
  new_events domain_cached
    (cachify domain_source (KTuple ["domain"; "name"]) account
       domain_cached).2
    = [RedisGet (cache_key account "domain");
       RedisGet (cache_key account "name")] /\
  redis_cache
    (cachify domain_source (KTuple ["domain"; "name"]) account
       domain_cached).2
    = redis_cache domain_cached /\
  channel
    (cachify domain_source (KTuple ["domain"; "name"]) account
       domain_cached).2 !! "domain"
    = Some (PStr "example.com").
Proof.
  destruct (proj2 (cachify_invokes_iff_no_field_cached domain_source
                     (KTuple ["domain"; "name"]) account domain_cached))
    as (Hret & Hevents & Hcache & Hdict).
  { intros Hmiss. specialize (Hmiss "domain"). cbv in Hmiss.
    assert (Hin : "domain" ∈ ["domain"; "name"]) by left.
    specialize (Hmiss Hin). discriminate. }
  split; [exact Hret|]. split; [exact Hevents|]. split; [exact Hcache|].
  apply Hdict; [left|reflexivity].
Defined.

(** The claim of C3 fails on a partial hit: [name] misses the cache, and
    the wrapper returns after its two reads without invoking the
    resolver, leaving [name] out of the shared dict. *)
Lemma cachify_partial_hit_skips_resolver :
  redis_get (redis_cache domain_cached) (cache_key account "name") = None /\
  new_events domain_cached
    (cachify domain_source (KTuple ["domain"; "name"]) account
       domain_cached).2
    = [RedisGet (cache_key account "domain");
       RedisGet (cache_key account "name")] /\
  (Invoke ["domain"; "name"] account
     ∉ new_events domain_cached
         (cachify domain_source (KTuple ["domain"; "name"]) account
            domain_cached).2) /\
  channel
    (cachify domain_source (KTuple ["domain"; "name"]) account
       domain_cached).2 !! "name" = None.
Proof.
  assert (Hevents :
    new_events domain_cached
      (cachify domain_source (KTuple ["domain"; "name"]) account
         domain_cached).2
    = [RedisGet (cache_key account "domain");
       RedisGet (cache_key account "name")]) by reflexivity.
  split; [reflexivity|]. split; [exact Hevents|]. split; [|reflexivity].
  rewrite Hevents. intros Hin.
  apply elem_of_cons in Hin as [[=]|Hin].
  apply elem_of_cons in Hin as [[=]|Hin].
  by apply elem_of_nil in Hin.
Qed.

(** C2, where the code departs from it.  On the network [all_three] the
    domain resolver returns a domain together with an x-name.  The wrapper
    that [get_any_name] builds for it writes the domain and drops the
    x-name: the shared dict has the one field [domain], the one [setex]
    sent is that of the domain, and the cache has no entry for the
    name. *)
Theorem cachify_get_domain_drops_x_name :
  outcome (domain_source account)
    = Ret (PTuple [PStr "example.com"; PList [PStr "Example Corp"]]) /\
  (cachify domain_source (KStr "domain") account cold).1 = Ret tt /\
  map_to_list (channel (cachify domain_source (KStr "domain") account cold).2)
    = [("domain", PStr "example.com")] /\
  filter is_setex
    (new_events cold (cachify domain_source (KStr "domain") account cold).2)
    = [RedisSetex (cache_key account "domain") CACHE_TIMEOUT
         (PStr "example.com")] /\
  redis_get (redis_cache (cachify domain_source (KStr "domain") account cold).2)
    (cache_key account "name") = None.
Proof. repeat split; vm_compute; reflexivity. Qed.

(** C1, where the code departs from it.  On the network [all_three] the
    domain resolver returns a domain together with an x-name and the
    nickname resolver a nickname.  Both greenlets finish in time, on a
    cold cache, and the request resolves to the nickname: the x-name is
    not in the shared dict, so the merger cannot pick it. *)
Theorem get_any_name_returns_nickname_despite_x_name :
  outcome (domain_source account)
    = Ret (PTuple [PStr "example.com"; PList [PStr "Example Corp"]]) /\
  outcome (get_nickname all_three py_str account) = Ret (PStr "~alice") /\
  (get_any_name defaults all_three get_urls loads py_str account
     [true; true] cold).1 = Ret (PStr "~alice") /\
  map_to_list
    (channel (get_any_name defaults all_three get_urls loads py_str account
                [true; true] cold).2)
    = [("nickname", PStr "~alice"); ("domain", PStr "example.com")].
Proof. repeat split; vm_compute; reflexivity. Qed.



(** With all three sources answering, the shared dict has no [name]. *)
Lemma get_any_name_never_writes_name_witness :
  channel (get_any_name defaults all_three get_urls loads py_str account
             [true; true] cold).2 !! "name" = None.
Proof.
  exact (proj1 (proj2 (get_any_name_never_writes_name defaults all_three
                         get_urls loads py_str account [true; true] cold))).
Defined.

(** *** Further runs *)

(** On [all_three] the first candidate is down, the second answers 404,
    the third 200: the three are asked, in that order. *)
Lemma fetch_asks_until_first_200_witness :
  requests (fetch_ripple_txt all_three candidates false)
  = [("https://ripple.example.com/ripple.txt", true);
     ("https://www.example.com/ripple.txt", true);
     ("https://example.com/ripple.txt", true)].
Proof.
  apply (proj1 (fetch_asks_until_first_200 all_three candidates false)
           ["https://ripple.example.com/ripple.txt";
            "https://www.example.com/ripple.txt"]
           "https://example.com/ripple.txt" [] vouching_doc).
  - reflexivity.
  - repeat constructor; discriminate.
  - reflexivity.
  - reflexivity.
Defined.

(** The domain returned on [all_three] is the one of the settings, and a
    candidate vouches for the account. *)
Lemma get_domain_returns_vouched_domain_only_witness :
  PTuple [PStr "example.com"; PList [PStr "Example Corp"]] = PNone \/
  PTuple [PStr "example.com"; PList [PStr "Example Corp"]]
    = PTuple [PStr ""; PStr ""] \/
  exists domain urls url doc cfg,
    PTuple [PStr "example.com"; PList [PStr "Example Corp"]]
    = PTuple [domain;
              match assoc "x-name" cfg with
              | Some lines => PList (PStr <$> lines)
              | None => PStr ""
              end] /\
    settings_domain defaults all_three account domain /\
    truthy domain = true /\
    get_urls domain = Ret urls /\
    url ∈ urls /\
    all_three url true = Answer doc /\
    status_code doc = 200 /\
    loads (text doc) = Ret cfg /\
    account ∈ default [] (assoc "accounts" cfg).
Proof.
  apply (get_domain_returns_vouched_domain_only defaults all_three get_urls
           loads account).
  reflexivity.
Defined.

Lemma get_domain_verified_witness :
  outcome (get_domain defaults all_three get_urls loads account)
  = Ret (PTuple [PStr "example.com"; PList [PStr "Example Corp"]]).
Proof.
  apply (get_domain_verified defaults all_three get_urls loads account
           (PStr "example.com")
           ["https://ripple.example.com/ripple.txt";
            "https://www.example.com/ripple.txt"]
           "https://example.com/ripple.txt" [] vouching_doc vouching_cfg).
  - apply settings_domain_with_domain.
  - reflexivity.
  - reflexivity.
  - repeat constructor; discriminate.
  - reflexivity.
  - reflexivity.
  - reflexivity.
  - left.
Defined.

(** The settings service answers 500, or reports a failure. *)
Lemma get_domain_unusable_settings_witness :
  (outcome (get_domain defaults settings_refused get_urls loads account)
     = Ret PNone /\
   requests (get_domain defaults settings_refused get_urls loads account)
     = [(settings_url defaults account, true)]) /\
  (outcome (get_domain defaults settings_failure get_urls loads account)
     = Ret PNone /\
   requests (get_domain defaults settings_failure get_urls loads account)
     = [(settings_url defaults account, true)]).
Proof.
  split.
  - apply (get_domain_unusable_settings defaults settings_refused get_urls
             loads account
             {| status_code := 500; text := ""; json := None |}).
    + reflexivity.
    + left. discriminate.
  - apply (get_domain_unusable_settings defaults settings_failure get_urls
             loads account
             {| status_code := 200; text := "";
                json := Some (PDict [("success", PBool false)]) |}).
    + reflexivity.
    + right. exists (PDict [("success", PBool false)]), (PBool false).
      repeat split; reflexivity.
Defined.

(** A settings body that is not JSON, and one that is an empty object. *)
Lemma get_domain_malformed_settings_witness :
  outcome (get_domain defaults garbled get_urls loads account)
    = Raise ValueError /\
  outcome (get_domain defaults odd_bodies get_urls loads account)
    = Raise KeyError.
Proof.
  split.
  - apply (proj1 (get_domain_malformed_settings defaults garbled get_urls
                    loads account
                    {| status_code := 200; text := "<html>"; json := None |}
                    eq_refl eq_refl)).
    reflexivity.
  - apply (proj1 (proj2 (get_domain_malformed_settings defaults odd_bodies
                           get_urls loads account
                           {| status_code := 200; text := "";
                              json := Some (PDict []) |}
                           eq_refl eq_refl)) []); reflexivity.
Defined.

(** A directory body that is not JSON, and a null username. *)
Lemma get_nickname_odd_bodies_witness :
  outcome (get_nickname garbled py_str account) = Raise ValueError /\
  outcome (get_nickname odd_bodies py_str account) = Ret (PStr "").
Proof.
  split.
  - apply (proj1 (get_nickname_odd_bodies garbled py_str account
                    {| status_code := 200; text := "<html>"; json := None |}
                    eq_refl eq_refl)).
    reflexivity.
  - apply (proj1 (proj2 (proj2 (get_nickname_odd_bodies odd_bodies py_str
                           account
                           {| status_code := 200; text := "";
                              json := Some (PDict [("username", PNone)]) |}
                           eq_refl eq_refl))
                    [("username", PNone)] PNone eq_refl eq_refl)).
    reflexivity.
Defined.

(** Without a redis URL the domain wrapper invokes its resolver. *)
Lemma fake_redis_always_invokes_witness :
  Invoke ["domain"] account
    ∈ new_events uncached
        (cachify domain_source (KStr "domain") account uncached).2 /\
  redis_cache (cachify domain_source (KStr "domain") account uncached).2
    = FakeRedis.
Proof.
  destruct (fake_redis_always_invokes domain_source (KStr "domain") account
              uncached eq_refl) as (Hinvoke & Hcache & _).
  split; [exact Hinvoke | exact Hcache].
Defined.

(** The empty nickname resolved on [not_listed] is in the cache for the
    next run, which ends after its cache read with the network down. *)
Lemma cachify_resolved_field_is_served_witness :
  exists cached,
    redis_get
      (redis_cache
         (cachify (get_nickname not_listed py_str) (KStr "nickname") account
            cold).2)
      (cache_key account "nickname") = Some cached /\
    cachify (get_nickname unreachable py_str) (KStr "nickname") account
      (cachify (get_nickname not_listed py_str) (KStr "nickname") account
         cold).2
    = (Ret tt,
       {| redis_cache :=
            redis_cache
              (cachify (get_nickname not_listed py_str) (KStr "nickname")
                 account cold).2;
          channel :=
            <["nickname" := cached]>
              (channel
                 (cachify (get_nickname not_listed py_str) (KStr "nickname")
                    account cold).2);
          trace :=
            trace
              (cachify (get_nickname not_listed py_str) (KStr "nickname")
                 account cold).2
              ++ [RedisGet (cache_key account "nickname")] |}).
Proof.
  apply (cachify_resolved_field_is_served (get_nickname not_listed py_str)
           (get_nickname unreachable py_str) "nickname" account cold _ ∅);
    try reflexivity.
  by eexists.
Defined.

(** On [all_three], in time and with nothing cached, the nickname wins;
    with the nickname greenlet late, the domain does. *)
Lemma get_any_name_result_witness :
  (get_any_name defaults all_three get_urls loads py_str account
     [true; true] cold).1 = Ret (PStr "~alice") /\
  (get_any_name defaults all_three get_urls loads py_str account
     [true; false] cold).1 = Ret (PStr "example.com").
Proof.
  split.
  - apply (get_any_name_result defaults all_three get_urls loads py_str
             account [true; true] cold). reflexivity.
  - apply (get_any_name_result defaults all_three get_urls loads py_str
             account [true; false] cold). reflexivity.
Defined.

(** With both fields cached, the nickname as the empty string, the
    request resolves to the cached domain on any network. *)
Lemma get_any_name_served_from_cache_witness :
  (get_any_name defaults unreachable get_urls loads py_str account
     [true; true] both_cached).1 = Ret (PStr "example.com") /\
  new_events both_cached
    (get_any_name defaults unreachable get_urls loads py_str account
       [true; true] both_cached).2
  = [RedisGet (cache_key account "domain");
     RedisGet (cache_key account "nickname")] /\
  redis_cache
    (get_any_name defaults unreachable get_urls loads py_str account
       [true; true] both_cached).2 = redis_cache both_cached /\
  get_any_name defaults all_three get_urls loads py_str account
    [true; true] both_cached
  = get_any_name defaults unreachable get_urls loads py_str account
      [true; true] both_cached.
Proof.
  apply (get_any_name_served_from_cache
           defaults defaults unreachable all_three get_urls get_urls
           loads loads py_str py_str account [true; true] [true; true]
           both_cached (PStr "example.com") (PStr "")); reflexivity.
Defined.

(** A first request on [nothing_known] caches two entries; the next one,
    with all three sources answering, reads them and asks nothing. *)
Lemma get_any_name_twice_witness :
  new_events
    (get_any_name defaults nothing_known get_urls loads py_str account
       [true; true] cold).2
    (get_any_name defaults all_three get_urls loads py_str account
       [true; true]
       (get_any_name defaults nothing_known get_urls loads py_str account
          [true; true] cold).2).2
  = [RedisGet (cache_key account "domain");
     RedisGet (cache_key account "nickname")].
Proof.
  destruct (get_any_name_twice
              defaults defaults nothing_known all_three get_urls get_urls
              loads loads py_str py_str account [true; true] [true; true]
              cold ∅) as (d & n & _ & _ & _ & Hevents & _);
    [reflexivity | reflexivity | reflexivity | reflexivity | reflexivity
    | reflexivity | by eexists | by eexists | exact Hevents].
Defined.

(** Both greenlets late on [all_three]: the empty string. *)
Lemma get_any_name_nothing_in_time_witness :
  (get_any_name defaults all_three get_urls loads py_str account
     [false; false] cold).1 = Ret (PStr "").
Proof.
  apply (get_any_name_nothing_in_time defaults all_three get_urls loads
           py_str account [false; false] cold).
  - reflexivity.
  - repeat constructor.
Defined.

(** An empty nickname and a domain: the domain is picked. *)
Lemma pick_best_first_true_field_witness :
  pick_best ["name"; "nickname"; "domain"]
    (<["nickname" := PStr ""]> {["domain" := PStr "example.com"]})
  = PStr "example.com".
Proof.
  destruct (proj1 (pick_best_first_true_field ["name"; "nickname"; "domain"]
                    (<["nickname" := PStr ""]>
                       {["domain" := PStr "example.com"]}))
              ["name"; "nickname"] "domain" []) as [Hpick _].
  - reflexivity.
  - repeat constructor.
  - reflexivity.
  - exact Hpick.
Defined.

(** The empty nickname of [not_listed] is written back like any value. *)
Lemma cachify_values_written_witness :
  channel
    (cachify (get_nickname not_listed py_str) (KStr "nickname") account
       cold).2 !! "nickname" = Some (PStr "") /\
  RedisSetex (cache_key account "nickname") CACHE_TIMEOUT (PStr "")
    ∈ new_events cold
        (cachify (get_nickname not_listed py_str) (KStr "nickname") account
           cold).2.
Proof.
  destruct (cachify_values_written (get_nickname not_listed py_str)
              (KStr "nickname") account cold (PStr "") "nickname" (PStr ""))
    as (Hdict & Hsent & _).
  - apply all_miss_cold.
  - reflexivity.
  - discriminate.
  - repeat constructor. intros Hin. by apply elem_of_nil in Hin.
  - left.
  - split; [exact Hdict | exact Hsent].
Defined.
